(** * Call-center assistant: query understanding and retrieval gate

    A shallow embedding of [app/chatbot.py] and of [retrieve_context] from
    [app/rag.py], with the properties of the lexical scorer, the intent
    classifier, the follow-up detector and the confidence-gated answer flow.

    Python values are modelled as follows.
    - [str] is a list of Unicode code points (type [N]), so that the Khmer
      block U+1780..U+17FF can be spoken about; ASCII literals are written
      [py "..."].
    - [float] is IEEE 754 binary64, as Rocq's primitive floats.
    - Calls to the collaborators (sentence encoder, vector store, generative
      model, random source) are oracles; every call is recorded as an
      [Event], and effectful functions return a result together with the
      events they emitted, in order. *)

From Stdlib Require Import NArith ZArith List Bool Lia Sorted.
From Stdlib Require Import Strings.String Strings.Ascii Numbers.DecimalString
  Numbers.DecimalNat.
From Stdlib Require Import Floats.PrimFloat Floats.SpecFloat Floats.FloatOps
  Floats.FloatAxioms.
From stdpp Require Import base decidable countable list gmap.
Import ListNotations.

Local Open Scope N_scope.
Local Open Scope list_scope.

(* ===================================================================== *)
(** ** Python strings *)
(* ===================================================================== *)

Module PyStr.

(** A Python [str]: a sequence of code points. *)
Abbreviation str := (list N).

(** An ASCII literal as a [str]. *)
Fixpoint py (s : string) : str :=
  match s with
  | EmptyString => []
  | String a r => N_of_ascii a :: py r
  end.
Arguments py _%_string.

(** [str.isspace] on one code point: the code points CPython treats as
    white space in [strip()] and [split()]. *)
Definition isspace (c : N) : bool :=
  ((9 <=? c) && (c <=? 13)) || ((28 <=? c) && (c <=? 32))
  || (c =? 133) || (c =? 160) || (c =? 5760)
  || ((8192 <=? c) && (c <=? 8202))
  || (c =? 8232) || (c =? 8233) || (c =? 8239) || (c =? 8287)
  || (c =? 12288).

Fixpoint drop_while (p : N -> bool) (s : str) : str :=
  match s with
  | [] => []
  | c :: r => if p c then drop_while p r else s
  end.

Definition lstrip_by (p : N -> bool) (s : str) : str := drop_while p s.
Definition rstrip_by (p : N -> bool) (s : str) : str :=
  rev (drop_while p (rev s)).

(** [s.strip()] *)
Definition strip (s : str) : str := lstrip_by isspace (rstrip_by isspace s).

(** [c in chars] for a single code point. *)
Definition mem (c : N) (chars : str) : bool := existsb (N.eqb c) chars.

(** [s.rstrip(chars)] *)
Definition rstrip (chars : str) (s : str) : str :=
  rstrip_by (fun c => mem c chars) s.

(** [s.split()]: maximal runs of non-space code points, in order.  [cur]
    holds the word being read, reversed. *)
Fixpoint split_from (cur : str) (s : str) : list str :=
  match s with
  | [] => match cur with [] => [] | _ => [rev cur] end
  | c :: r =>
      if isspace c
      then match cur with
           | [] => split_from [] r
           | _ => rev cur :: split_from [] r
           end
      else split_from (c :: cur) r
  end.

Definition split (s : str) : list str := split_from [] s.

(** [s.startswith(p)] *)
Fixpoint startswith (p s : str) : bool :=
  match p, s with
  | [], _ => true
  | _ :: _, [] => false
  | a :: p', b :: s' => (a =? b) && startswith p' s'
  end.

(** [sub in s] *)
Fixpoint contains (sub s : str) : bool :=
  startswith sub s
  || match s with
     | [] => false
     | _ :: r => contains sub r
     end.

(** [sep.join(parts)] *)
Fixpoint join (sep : str) (parts : list str) : str :=
  match parts with
  | [] => []
  | [p] => p
  | p :: rest => p ++ sep ++ join sep rest
  end.

(** [str(n)] for a non-negative and for an arbitrary [int]. *)
Definition str_of_nat (n : nat) : str :=
  py (NilEmpty.string_of_uint (Nat.to_uint n)).
Definition str_of_Z (z : Z) : str :=
  py (NilZero.string_of_int (Z.to_int z)).

(** Lower-casing of an ASCII code point. *)
Definition ascii_lower (c : N) : N :=
  if (65 <=? c) && (c <=? 90) then c + 32 else c.

Definition isascii (s : str) : bool := forallb (fun c => c <? 128) s.

(** The proposition behind [contains]. *)
Definition Substring (sub s : str) : Prop :=
  exists pre post, s = pre ++ sub ++ post.

End PyStr.
Import PyStr.

(* ===================================================================== *)
(** ** Constants of [app/chatbot.py] *)
(* ===================================================================== *)

Definition GEMINI_MODEL : str := py "gemini-2.5-flash".

(** Banking / tech terms that strongly indicate a real case.  The list is
    kept as written, entry by entry, including the entries of the last
    block that repeat earlier ones. *)
Definition BANK_KEYWORDS : list str := map py
  [ (* products *)
    "account"; "savings"; "current"; "checking";
    "fixed deposit"; "time deposit"; "term deposit";
    "deposit"; "withdrawal"; "withdraw"; "transfer";
    "remittance"; "loan"; "credit"; "card"; "debit";
    "atm"; "cif"; "kyc";
    (* channels / apps *)
    "mobile app"; "mobile banking"; "internet banking";
    "online banking"; "ibanking"; "i-banking"; "app login";
    (* auth / security *)
    "otp"; "one time password"; "one-time password";
    "password"; "pin"; "passcode"; "login"; "log in";
    "locked"; "block"; "blocked"; "lock"; "unlock";
    (* docs / slips *)
    "statement"; "passbook"; "slip";
    (* misc *)
    "fees"; "charges"; "interest"; "rate"; "limit";
    "transaction"; "failed transaction";
    (* login & authentication keywords *)
    "login"; "log in"; "cannot login"; "can't login";
    "failed login"; "mobile app login"; "login issue";
    "password"; "otp"; "verification"; "auth"; "authentication"
  ]%string.

Definition PROBLEM_KEYWORDS : list str := map py
  [ "cannot"; "can't"; "cant";
    "error"; "issue"; "problem"; "failed"; "not working";
    "still cannot"; "still can't"; "doesn't work"; "does not work"
  ]%string.

(** A Python set literal; its members are pairwise distinct, and the code
    only counts the members that occur, so the order is immaterial. *)
Definition SMALLTALK_KEYWORDS : list str := map py
  [ "hi"; "hello"; "hey";
    "good morning"; "good afternoon"; "good evening";
    "thanks"; "thank you"; "thank"; "ok"; "okay";
    "cool"; "great"; "nice";
    "bye"; "goodbye"; "see you";
    "got it"; "understood"
  ]%string.

Definition SMALLTALK_REPLIES : list str := map py
  [ "Sure. What case are you working on?";
    "No problem. Tell me the customer's question when you're ready.";
    "Happy to help. What does the customer need?";
    "Got it. Please type the customer's question."
  ]%string.

(** One history entry: (agent-typed question, assistant response). *)
Definition Turn : Type := str * str.

(** [history[-1][0]], for a non-empty history. *)
Definition last_user_question (history : list Turn) : str :=
  fst (List.last history ([], [])).

(** The two values [classify_intent] returns. *)
Inductive Intent := smalltalk | banking.

Definition Intent_eqb (a b : Intent) : bool :=
  match a, b with
  | smalltalk, smalltalk | banking, banking => true
  | _, _ => false
  end.

(** Continuation markers of [is_followup]. *)
Definition markers : list str := map py
  [ "what about"; "how about"; "and for"; "and then";
    "also"; "too"; "again"; "valid"; "without";
    "are you sure"; "really"
  ]%string.

Definition wh_words : list str := map py
  [ "what"; "how"; "when"; "where"; "why"; "which" ]%string.

(* ===================================================================== *)
(** ** Lexical scoring, follow-up detection, intent classification *)
(* ===================================================================== *)

Section Lexical.

(** [str.lower] on a string with a non-ASCII code point: the Unicode case
    mapping of the Python runtime, which is not part of the repository. *)
Variable lower_unicode : str -> str.

(** [s.lower()]: CPython lower-cases a pure-ASCII string code point by code
    point and consults the Unicode tables otherwise. *)
Definition lower (s : str) : str :=
  if isascii s then map ascii_lower s else lower_unicode s.

(** Rough score: how many banking keywords appear in the text. *)
Definition keyword_score (text : str) (keywords : list str) : nat :=
  let t := lower text in
  list_sum (map (fun _ => 1%nat) (List.filter (fun kw => contains kw t) keywords)).

(** Heuristic: is this message a follow-up to the previous turn? *)
Definition is_followup (question : str) (history : list Turn) : bool :=
  match history with
  | [] => false
  | _ :: _ =>
      let q := rstrip (py "?!.") (strip (lower question)) in
      let words := split q in
      if (length words <=? 6)%nat then true
      else if existsb (fun m => contains m q) markers then true
      else
        let last_user_msg := lower (last_user_question history) in
        let last_words : gset str := list_to_set (split last_user_msg) in
        if bool_decide (last_words ∩ list_to_set words ≠ ∅) then true
        else false
  end.

(** Rule-based classification of a message. *)
Definition classify_intent (text : str) (history : list Turn) : Intent :=
  let t := strip (lower text) in
  match t with
  | [] => smalltalk
  | _ :: _ =>
      let stripped := rstrip (py ".!?") t in
      let words := split stripped in
      let word_count := length words in
      let has_question_mark := contains (py "?") text in
      let has_wh := existsb (fun w => contains w stripped) wh_words in
      let bank_score := keyword_score stripped BANK_KEYWORDS in
      let problem_score := keyword_score stripped PROBLEM_KEYWORDS in
      let smalltalk_score :=
        fold_left (fun score kw =>
                     if contains kw stripped then (score + 1)%nat else score)
                  SMALLTALK_KEYWORDS 0%nat in
      (* Very short messages without clear banking terms; else the
         fallback *)
      let tail :=
        if (word_count <=? 4)%nat && (bank_score =? 0)%nat then smalltalk
        else banking in
      (* Strong banking signals *)
      if (0 <? bank_score)%nat || (0 <? problem_score)%nat then banking
      else if has_question_mark || has_wh then
        if contains (py "how are you") stripped
           || contains (py "how's it going") stripped
        then smalltalk else banking
      else if (0 <? smalltalk_score)%nat && (word_count <=? 12)%nat then
        if (contains (py "question") stripped && contains (py "have") stripped)
           || contains (py "want to ask") stripped
        then smalltalk
        else if contains (py "can i ask") stripped
                || contains (py "can you answer") stripped
                || contains (py "you can answer") stripped
        then smalltalk
        else if (word_count <=? 6)%nat then smalltalk
        else tail
      else tail
  end.

End Lexical.

(* ===================================================================== *)
(** ** Collaborators, events and the result of an effectful call *)
(* ===================================================================== *)

(** A query embedding. *)
Definition Embedding : Type := list float.

(** The metadata of an indexed chunk, as the indexer stores it: [source]
    is a file name and [page] a page number; a key may be absent.  The
    other stored keys are never read by the code modelled here. *)
Record Metadata := { md_source : option str; md_page : option Z }.

(** (text, metadata, distance) *)
Definition ContextDoc : Type := str * Metadata * float.

(** What [collection.query] hands back: under each key, one list per query
    embedding; [None] is an absent key. *)
Record QueryResult := {
  documents : option (list (list str));
  metadatas : option (list (list Metadata));
  distances : option (list (list float))
}.

(** The arguments of [models.generate_content]: one user part holding the
    prompt, and the generation config. *)
Record GenerateRequest := {
  model : str;
  contents : str;
  system_instruction : str;
  temperature : float
}.

(** One call to a collaborator. *)
Inductive Event :=
| EncodeCall (texts : list str)
| QueryCall (query_embeddings : list Embedding) (n_results : Z)
| GenerateCall (req : GenerateRequest)
| ChoiceCall (pool : list str).

Definition is_generate (e : Event) : bool :=
  match e with GenerateCall _ => true | _ => false end.

Definition is_retrieval (e : Event) : bool :=
  match e with EncodeCall _ | QueryCall _ _ => true | _ => false end.

Inductive exn := IndexError.

Inductive Result (A : Type) :=
| Ok (a : A)
| Raise (e : exn).
Arguments Ok {A} a.
Arguments Raise {A} e.

(** An effectful computation: its outcome and the calls it made. *)
Definition M (A : Type) : Type := Result A * list Event.

Definition ret {A} (a : A) : M A := (Ok a, []).

Definition bind {A B} (m : M A) (f : A -> M B) : M B :=
  match m with
  | (Ok a, t) => let (r, t') := f a in (r, t ++ t')
  | (Raise e, t) => (Raise e, t)
  end.

(** A call to a collaborator that answers [r]. *)
Definition call {A} (ev : Event) (r : A) : M A := (Ok r, [ev]).

Definition raise {A} (e : exn) : M A := (Raise e, []).

Notation "x <- m ;; k" := (bind m (fun x => k))
  (at level 100, m at next level, right associativity).

Definition outcome {A} (m : M A) : Result A := fst m.
Definition trace {A} (m : M A) : list Event := snd m.

(** [l[0]] *)
Definition index0 {A} (l : list A) : M A :=
  match l with
  | [] => raise IndexError
  | x :: _ => ret x
  end.

(** [min(l)] for a non-empty list [x :: r] of floats: the first item is
    kept until a strictly smaller one is met. *)
Definition py_min (x : float) (r : list float) : float :=
  fold_left (fun m y => if PrimFloat.ltb y m then y else m) r x.

(** [zip(docs, metas, dists)] *)
Fixpoint zip3 {A B C} (docs : list A) (metas : list B) (dists : list C)
  : list (A * B * C) :=
  match docs, metas, dists with
  | d :: ds, m :: ms, x :: xs => (d, m, x) :: zip3 ds ms xs
  | _, _, _ => []
  end.

Definition nl : str := [10].
Definition em_dash : str := [8212].

(** Detect if the text contains Khmer characters (U+1780..U+17FF). *)
Definition contains_khmer (text : str) : bool :=
  match text with
  | [] => false
  | _ :: _ => existsb (fun c => (6016 <=? c) && (c <=? 6143)) text
  end.

(** Chat history as plain text; only the last [max_turns] exchanges. *)
Definition build_history_prefix (history : list Turn) (max_turns : nat) : str :=
  match history with
  | [] => []
  | _ :: _ =>
      let recent :=
        match max_turns with
        | O => history
        | _ => skipn (length history - max_turns) history
        end in
      let parts :=
        flat_map (fun '(user_msg, bot_msg) =>
                    [py "Agent: " ++ user_msg; py "Assistant: " ++ bot_msg])
                 recent in
      join nl parts
  end.

Definition KHMER_REPLY : str :=
  py "I detected Khmer text. Right now I can only search the internal knowledge base with English questions."
  ++ nl
  ++ py "Please retype the customer's question in English (product name, action, amount, etc.).".

Definition KHMER_SNIPPET : str :=
  py "Khmer detected " ++ em_dash ++ py " RAG not used.".

Definition SMALLTALK_SNIPPET : str :=
  py "Smalltalk / intent " ++ em_dash ++ py " no context used.".

(** [LOW_CONF_THRESHOLD = 1.2]: the binary64 value nearest to 1.2, which is
    what the Python literal denotes. *)
Definition LOW_CONF_THRESHOLD : float := 0x1.3333333333333p+0%float.

Definition fallback_answer : str :=
  py "Customer answer: I'm not fully sure based on the available information. "
  ++ py "Please inform the customer that you will double-check and get back to them."
  ++ nl ++ nl
  ++ py "Internal notes: Retrieval confidence was low or there is no closely related article "
  ++ py "in the current knowledge base." ++ nl ++ nl
  ++ py "Steps:" ++ nl
  ++ py "1) Confirm the customer's product and key details." ++ nl
  ++ py "2) Check the official product policy or internal system manually." ++ nl
  ++ py "3) If still unclear, escalate to a supervisor. (Human handoff recommended.)".

(** [temperature=0.2]: the binary64 value nearest to 0.2. *)
Definition GEN_TEMPERATURE : float := 0x1.999999999999ap-3%float.

Definition NO_CONTEXT : str := py "No context retrieved.".
Definition NO_ANSWER : str := py "Sorry, I could not generate an answer.".

Definition system_instruction_text : str :=
  py "You are an internal assistant helping call-center agents at a bank." ++ nl
  ++ py "You must follow these rules:" ++ nl
  ++ py "1) Use ONLY the provided context documents and short conversation history. Do not invent policies." ++ nl
  ++ py "2) If the context does not contain enough information, say you are not sure and suggest escalating or "
  ++ py "checking the official system." ++ nl
  ++ py "3) Always respond in this structure:" ++ nl
  ++ py "   Customer answer: <short, simple explanation the agent will say to the customer in English>." ++ nl
  ++ py "   Internal notes: <detailed internal explanation referring to context, numbers, and conditions>." ++ nl
  ++ py "   Steps: <1-3 bullet points on what the agent should do>." ++ nl
  ++ py "4) Keep tone polite, clear, and professional. Do not mention embeddings, vectors, or retrieval." ++ nl.

(** [context_docs[0][0] if context_docs else "No context retrieved."] *)
Definition top_context (context_docs : list ContextDoc) : str :=
  match context_docs with
  | [] => NO_CONTEXT
  | (doc, _, _) :: _ => doc
  end.

(* ===================================================================== *)
(** ** Retrieval, prompt building and the answer flow *)
(* ===================================================================== *)

Section Gate.

Variable lower_unicode : str -> str.

(** [embed_model.encode]: one embedding per text. *)
Variable encode : list str -> list Embedding.
(** [collection.query] with documents, metadatas and distances included. *)
Variable query : list Embedding -> Z -> QueryResult.
(** [response.text] of [models.generate_content]; [None] when the model
    returned no text. *)
Variable generate_content : GenerateRequest -> option str.
(** The index drawn by [random.choice] on a pool of the given size. *)
Variable randbelow : nat -> nat.
(** [f"{dist:.2f}"], the runtime's fixed-point float formatting. *)
Variable format_2f : float -> str.

(** Retrieve the top-k most relevant chunks for a question. *)
Definition retrieve_context (question : str) (k : Z)
  : M (list ContextDoc * option float) :=
  embs <- call (EncodeCall [question]) (encode [question]) ;;
  q_emb <- index0 embs ;;
  results <- call (QueryCall [q_emb] k) (query [q_emb] k) ;;
  docs <- index0 (default [[]] (documents results)) ;;
  metas <- index0 (default [[]] (metadatas results)) ;;
  dists <- index0 (default [[]] (distances results)) ;;
  let context_docs := [] in
  let best_distance := None in
  let best_distance :=
    match dists with
    | [] => best_distance
    | d :: r => Some (py_min d r)
    end in
  let context_docs := context_docs ++ zip3 docs metas dists in
  ret (context_docs, best_distance).

(** The header line and text of the [i]-th context document. *)
Definition context_str (i : nat) (cd : ContextDoc) : str :=
  let '(doc, meta, dist) := cd in
  let src := default (py "unknown source") (md_source meta) in
  let src :=
    match md_page meta with
    | Some page =>
        if (page =? 0)%Z then src
        else src ++ py " (page " ++ str_of_Z page ++ py ")"
    | None => src
    end in
  py "[Doc " ++ str_of_nat (i + 1) ++ py " | " ++ src ++ py " | dist="
  ++ format_2f dist ++ py "]" ++ nl ++ doc.

(** System instruction and user prompt for the generative model. *)
Definition build_prompt (question : str) (context_docs : list ContextDoc)
    (history_text : str) : str * str :=
  let context_strs := imap context_str context_docs in
  let context_block :=
    match context_strs with
    | [] => py "No context found."
    | _ :: _ => join (nl ++ nl ++ py "---" ++ nl ++ nl) context_strs
    end in
  let user_prompt :=
    history_text ++ nl ++ nl
    ++ py "Knowledge base context:" ++ nl ++ context_block ++ nl ++ nl
    ++ py "Agent's question: " ++ question ++ nl ++ nl
    ++ py "Now produce the structured answer." in
  (system_instruction_text, user_prompt).

(** [random.choice(pool)] on a non-empty pool. *)
Definition random_choice (pool : list str) : M str :=
  call (ChoiceCall pool)
       (nth (randbelow (length pool) mod length pool)%nat pool []).

(** [best_distance > LOW_CONF_THRESHOLD] *)
Definition above_threshold (best_distance : float) : bool :=
  PrimFloat.ltb LOW_CONF_THRESHOLD best_distance.

(** The retrieval query of step 3. *)
Definition retrieval_question (raw_q : str) (normalized_q : str)
    (history : list Turn) : str :=
  let followup_flag := is_followup lower_unicode normalized_q history in
  match followup_flag, history with
  | true, _ :: _ =>
      let last_user_question := last_user_question history in
      last_user_question ++ nl ++ py "Follow-up: " ++ raw_q
  | _, _ => raw_q
  end.

(** The request of step 7. *)
Definition generation_request (raw_q : str) (context_docs : list ContextDoc)
    (history : list Turn) : GenerateRequest :=
  let history_text := build_history_prefix history 6 in
  let '(system_instruction, user_prompt) :=
    build_prompt raw_q context_docs history_text in
  {| model := GEMINI_MODEL;
     contents := user_prompt;
     system_instruction := system_instruction;
     temperature := GEN_TEMPERATURE |}.

(** Main RAG function for the chatbot: (answer_text, top_context_snippet). *)
Definition answer_question (question : str) (k : Z)
    (history : option (list Turn)) : M (str * str) :=
  let history := default [] history in
  let raw_q := match question with [] => [] | _ :: _ => question end in
  let normalized_q := strip (lower lower_unicode raw_q) in
  (* 1. Khmer detection *)
  if contains_khmer raw_q then ret (KHMER_REPLY, KHMER_SNIPPET)
  else
    (* 2. Intent classification *)
    let intent := classify_intent lower_unicode normalized_q history in
    if Intent_eqb intent smalltalk then
      reply <- random_choice SMALLTALK_REPLIES ;;
      ret (reply, SMALLTALK_SNIPPET)
    else
      (* 3. Follow-up detection for retrieval query *)
      let retrieval_question := retrieval_question raw_q normalized_q history in
      (* 4. Retrieve context *)
      retrieved <- retrieve_context retrieval_question k ;;
      let '(context_docs, best_distance) := retrieved in
      (* 5. Low-confidence fallback *)
      let low_conf :=
        match context_docs with [] => true | _ :: _ => false end
        || match best_distance with
           | None => true
           | Some d => above_threshold d
           end in
      if low_conf then ret (fallback_answer, top_context context_docs)
      else
        (* 6./7. Prompt with recent history, then generation *)
        let req := generation_request raw_q context_docs history in
        text <- call (GenerateCall req) (generate_content req) ;;
        let answer_text :=
          match text with
          | Some (c :: r) => c :: r
          | Some [] | None => NO_ANSWER
          end in
        ret (answer_text, top_context context_docs).

End Gate.

(* ===================================================================== *)
(** ** Index building ([build_or_load_index] of [app/rag.py]) *)
(* ===================================================================== *)

Section Indexer.

(** The metadata dict of a loaded document; it is passed to the store
    untouched. *)
Variable Meta : Type.
(** [{}] *)
Variable empty_meta : Meta.

(** A loaded document: [d["text"]] and [d.get("metadata")]. *)
Record Doc := { doc_text : str; doc_metadata : option Meta }.

(** One call made while the index is built. *)
Inductive IndexEvent :=
| CountCall
| GetCall
| DeleteCall (ids : list str)
| LoadExcelCall (path : str)
| IsDirCall (path : str)
| LoadPdfsCall (path : str)
| EmbedTextsCall (texts : list str)
| AddCall (ids : list str) (documents : list str) (metadatas : list Meta)
          (embeddings : list Embedding).

(** [collection.count()] *)
Variable collection_count : nat.
(** [collection.get()]: the list under "ids"; [None] when the result is
    empty or has no such key. *)
Variable collection_get : option (list str).
(** [load_excel_as_docs] *)
Variable load_excel_as_docs : str -> list Doc.
(** [os.path.isdir] *)
Variable isdir : str -> bool.
(** [load_all_pdfs]; [None] when it raises. *)
Variable load_all_pdfs : str -> option (list Doc).
(** [embed_texts] *)
Variable embed_texts : list str -> list Embedding.

(** The documents loaded from the PDF folder, and the calls made for it. *)
Definition load_pdf_docs (pdf_dir : str) : list Doc * list IndexEvent :=
  if isdir pdf_dir then
    (match load_all_pdfs pdf_dir with
     | Some docs => docs
     | None => []
     end, [IsDirCall pdf_dir; LoadPdfsCall pdf_dir])
  else ([], [IsDirCall pdf_dir]).

(** Build the index from Excel + PDF if needed; the calls it makes, in
    order.  (The collection and model handles it returns carry no data.) *)
Definition build_or_load_index (excel_path pdf_dir : str) (rebuild : bool)
  : list IndexEvent :=
  let existing_count := collection_count in
  CountCall ::
  if (0 <? existing_count)%nat && negb rebuild then []
  else
    (* clear old data if any *)
    let clear :=
      if (0 <? existing_count)%nat then
        GetCall :: match collection_get with
                   | Some (i :: ids) => [DeleteCall (i :: ids)]
                   | Some [] | None => []
                   end
      else [] in
    let docs_excel := load_excel_as_docs excel_path in
    let docs_pdf := fst (load_pdf_docs pdf_dir) in
    let docs := docs_excel ++ docs_pdf in
    clear ++ [LoadExcelCall excel_path] ++ snd (load_pdf_docs pdf_dir)
    ++ match docs with
       | [] => []
       | _ :: _ =>
           let texts := map doc_text docs in
           let metadatas :=
             map (fun d => default empty_meta (doc_metadata d)) docs in
           let ids :=
             map (fun i => py "doc-" ++ str_of_nat i) (seq 0 (length texts)) in
           let embeddings := embed_texts texts in
           [EmbedTextsCall texts; AddCall ids texts metadatas embeddings]
       end.

Definition is_write (ev : IndexEvent) : bool :=
  match ev with
  | DeleteCall _ | AddCall _ _ _ _ => true
  | _ => false
  end.

End Indexer.

Arguments CountCall {Meta}.
Arguments GetCall {Meta}.
Arguments DeleteCall {Meta} ids.
Arguments LoadExcelCall {Meta} path.
Arguments IsDirCall {Meta} path.
Arguments LoadPdfsCall {Meta} path.
Arguments EmbedTextsCall {Meta} texts.
Arguments AddCall {Meta} ids documents metadatas embeddings.
Arguments doc_text {Meta} d.
Arguments doc_metadata {Meta} d.
Arguments is_write {Meta} ev.


(* ===================================================================== *)
(** ** Document loading ([app/load_pdf.py], [app/load_excel.py]) *)
(* ===================================================================== *)

(** [a <= b] on strings: lexicographic, by code point. *)
Fixpoint str_le (a b : str) : bool :=
  match a, b with
  | [], _ => true
  | _ :: _, [] => false
  | x :: a', y :: b' =>
      if x <? y then true else if x =? y then str_le a' b' else false
  end.

(** The line boundaries of [str.splitlines]. *)
Definition is_linebreak (c : N) : bool :=
  (c =? 10) || (c =? 11) || (c =? 12) || (c =? 13) || (c =? 28)
  || (c =? 29) || (c =? 30) || (c =? 133) || (c =? 8232) || (c =? 8233).

(** [s.splitlines()]; a carriage return followed by a line feed is one
    boundary, and a final boundary opens no further line.  [cur] holds the
    line being read, reversed. *)
Fixpoint splitlines_from (cur : str) (s : str) : list str :=
  match s with
  | [] => match cur with [] => [] | _ => [rev cur] end
  | c :: r =>
      if is_linebreak c then
        rev cur ::
        match r with
        | c2 :: r' =>
            if (c =? 13) && (c2 =? 10) then splitlines_from [] r'
            else splitlines_from [] r
        | [] => splitlines_from [] r
        end
      else splitlines_from (c :: cur) r
  end.

Definition splitlines (s : str) : list str := splitlines_from [] s.

(** [s.find(sub)]; [None] stands for -1. *)
Fixpoint find (sub s : str) : option nat :=
  if startswith sub s then Some 0%nat
  else match s with
       | [] => None
       | _ :: r => option_map S (find sub r)
       end.

(** Detect if a line contains Chinese characters. *)
Definition _has_chinese (line : str) : bool :=
  existsb (fun c => (19968 <=? c) && (c <=? 40959)) line.

(** One page of a PDF as [pdfplumber] hands it over: the extracted text
    ([None] when there is none), or a failure while reading. *)
Inductive PageRead :=
| Extracted (text : option str)
| ReadFailed.

(** A document loaded from a PDF page. *)
Record PdfDoc := {
  pd_id : str;
  pd_text : str;
  pd_source : str;
  pd_page : nat;
  pd_category : str;
  pd_subcategory : str
}.

(** One chat message of the session state. *)
Record Message := { role : str; content : str }.

Section Loaders.

Variable lower_unicode : str -> str.
Local Abbreviation lower := (lower lower_unicode).

(** Heuristic: line contains A-Z letters. *)
Definition _is_english_line (line : str) : bool :=
  existsb (fun c => str_le (py "a") (lower [c]) && str_le (lower [c]) (py "z"))
          line.

(** The loop of [extract_english_block] over the stripped lines;
    [started] tells whether an English line has been met. *)
Fixpoint english_lines (started : bool) (lines : list str) : list str :=
  match lines with
  | [] => []
  | line :: rest =>
      match line with
      | [] => english_lines started rest
      | _ :: _ =>
          if _has_chinese line then
            if started then [] else english_lines started rest
          else
            let started := if _is_english_line line then true else started in
            if started then line :: english_lines started rest
            else english_lines started rest
      end
  end.

(** Extract only the English section from one PDF page. *)
Definition extract_english_block (page_text : str) : str :=
  let lines := map strip (splitlines page_text) in
  strip (join nl (english_lines false lines)).

(** The subcategory that [_load_single_pdf] derives from the file stem. *)
Definition pdf_subcategory (base_name : str) : str :=
  let name := base_name in
  let name :=
    match find (py ". ") name with
    | Some i => skipn (i + 2) name
    | None => name
    end in
  let prefix := py "Terms and Conditions for " in
  let name :=
    if startswith prefix name then skipn (length prefix) name else name in
  match strip name with
  | [] => base_name
  | c :: r => c :: r
  end.

(** The page loop of [_load_single_pdf]: [i] is the index of the next
    page; a failure ends the loading and keeps the documents made so far. *)
Fixpoint load_pages (file_name default_category subcategory : str) (i : nat)
    (pages : list PageRead) : list PdfDoc :=
  match pages with
  | [] => []
  | ReadFailed :: _ => []
  | Extracted text :: rest =>
      let raw_text := default [] text in
      let english_text := extract_english_block raw_text in
      match english_text with
      | [] => load_pages file_name default_category subcategory (S i) rest
      | _ :: _ =>
          {| pd_id := file_name ++ py "_page_" ++ str_of_nat (i + 1);
             pd_text := english_text;
             pd_source := file_name;
             pd_page := (i + 1)%nat;
             pd_category := default_category;
             pd_subcategory := subcategory |}
          :: load_pages file_name default_category subcategory (S i) rest
      end
  end.

(** Helper to load a single PDF file, given its name, its stem and the
    pages read from it. *)
Definition _load_single_pdf (file_name base_name : str)
    (default_category : str) (pages : list PageRead) : list PdfDoc :=
  load_pages file_name default_category (pdf_subcategory base_name) 0 pages.

(** The labelled part that [_row_to_text] makes of one cell. *)
Definition row_part (col text : str) : str :=
  let col_lower := lower (strip col) in
  if contains (py "question") col_lower then py "Customer question: " ++ text
  else if contains (py "answer") col_lower then py "Customer answer: " ++ text
  else if contains (py "internal") col_lower then py "Internal notes: " ++ text
  else if contains (py "step") col_lower then py "Steps: " ++ text
  else col ++ py ": " ++ text.

(** Turn a KB row into a single text block.  A cell is its column name and
    its value as text, [None] for a missing value. *)
Definition _row_to_text (row : list (str * option str)) : str :=
  join nl
    (flat_map (fun '(col, val) =>
                 match val with
                 | None => []
                 | Some v =>
                     match strip v with
                     | [] => []
                     | c :: r => [row_part col (c :: r)]
                     end
                 end) row).

(** [answer_text[start:]] and [answer_text[start:end]]. *)
Definition slice (s : str) (start : nat) (stop : option nat) : str :=
  match stop with
  | None => skipn start s
  | Some e => skipn start (firstn e s)
  end.

Definition slice_part (answer_text : str) (start stop : option nat)
  : option str :=
  match start with
  | None => None
  | Some st =>
      let part := slice answer_text st stop in
      let part :=
        match find (py ":") part with
        | Some colon_pos => skipn (colon_pos + 1) part
        | None => part
        end in
      Some (strip part)
  end.

(** The three sections the UI cuts out of an answer ([app/ui.py]). *)
Definition split_answer_sections (answer_text : str)
  : option str * option str * option str :=
  let lower_text := lower answer_text in
  let ca_idx := find (py "customer answer:") lower_text in
  let in_idx := find (py "internal notes:") lower_text in
  let st_idx := find (py "steps:") lower_text in
  match ca_idx with
  | None => (Some answer_text, None, None)
  | Some _ =>
      let customer_part :=
        slice_part answer_text ca_idx
                   (match in_idx with Some _ => in_idx | None => st_idx end) in
      let notes_part :=
        match in_idx with
        | Some _ => slice_part answer_text in_idx st_idx
        | None => None
        end in
      let steps_part :=
        match st_idx with
        | Some _ => slice_part answer_text st_idx None
        | None => None
        end in
      (customer_part, notes_part, steps_part)
  end.

End Loaders.

(** The history the UI hands to [answer_question]: one pair per user or
    assistant message, made of the role and the content. *)
Definition history_pairs (messages : list Message) : list Turn :=
  flat_map (fun m =>
              if bool_decide (role m = py "user")
              then [(py "user", content m)]
              else if bool_decide (role m = py "assistant")
                   then [(py "assistant", content m)]
                   else []) messages.

Section UiTurn.

Variable lower_unicode : str -> str.
Variable encode : list str -> list Embedding.
Variable query : list Embedding -> Z -> QueryResult.
Variable generate_content : GenerateRequest -> option str.
Variable randbelow : nat -> nat.
Variable format_2f : float -> str.

(** The backend call of the UI for the last message of the session. *)
Definition ui_answer (messages : list Message) : M (str * str) :=
  let history_pairs := history_pairs messages in
  match last messages with
  | None => raise IndexError
  | Some m =>
      let query_text := content m in
      answer_question lower_unicode encode query generate_content randbelow
                      format_2f query_text 5 (Some history_pairs)
  end.

End UiTurn.

(* ===================================================================== *)
(** ** The cached embedding model ([app/embeddings.py]) *)
(* ===================================================================== *)

Section ModelCache.

Variable Model : Type.
(** [SentenceTransformer(name)] *)
Variable load_model : str -> Model.

Definition MODEL_NAME : str := py "sentence-transformers/all-MiniLM-L6-v2".

(** Lazy-load and cache the embedding model: the model, the new value of
    the global [_model], and the model names loaded by this call. *)
Definition get_embedding_model (_model : option Model)
  : Model * option Model * list str :=
  match _model with
  | None =>
      let m := load_model MODEL_NAME in
      (m, Some m, [MODEL_NAME])
  | Some m => (m, Some m, [])
  end.

(** [n] calls in a row: the models returned, the final cache, the loads. *)
Fixpoint get_embedding_model_times (n : nat) (_model : option Model)
  : list Model * option Model * list str :=
  match n with
  | O => ([], _model, [])
  | S n' =>
      let '(m, cache, loads) := get_embedding_model _model in
      let '(ms, cache', loads') := get_embedding_model_times n' cache in
      (m :: ms, cache', loads ++ loads')
  end.

End ModelCache.


(* ===================================================================== *)
(** ** Vocabulary of the statements, and stub collaborators *)
(* ===================================================================== *)

(** A stand-in for the Unicode case mapping in runs on pure-ASCII text,
    where [lower] never consults it. *)
Definition ascii_only : str -> str := fun s => s.

(** The entries of [l], each distinct one once, that satisfy [P]. *)
Definition distinct_matches (P : str -> Prop) `{!forall x, Decision (P x)}
    (l : list str) : list str :=
  filter P (remove_dups l).

(** How often [d] is listed in [l]. *)
Definition multiplicity (l : list str) (d : str) : nat :=
  length (filter (fun x => x = d) l).

(** Code points that [lower] leaves alone: ASCII and not an upper-case
    letter. *)
Definition lowered_ascii (c : N) : Prop := c < 128 /\ (c < 65 \/ 90 < c).

(** [min(dists) if dists else None] *)
Definition best_of (dists : list float) : option float :=
  match dists with
  | [] => None
  | d :: r => Some (py_min d r)
  end.

(** Stub collaborators for concrete runs. *)
Definition stub_encode : list str -> list Embedding :=
  map (fun _ => [0.5%float]).

Definition kb_doc : str :=
  py "Customer question: What are the fees? Customer answer: See the fee table.".

Definition kb_meta : Metadata :=
  {| md_source := Some (py "kb.xlsx"); md_page := None |}.

(** A store whose only hit lies at distance 1.5. *)
Definition far_query : list Embedding -> Z -> QueryResult :=
  fun _ _ =>
    {| documents := Some [[kb_doc]];
       metadatas := Some [[kb_meta]];
       distances := Some [[1.5%float]] |}.

(** A store whose only hit lies at distance 0.8 (nearest binary64 value). *)
Definition near_query : list Embedding -> Z -> QueryResult :=
  fun _ _ =>
    {| documents := Some [[kb_doc]];
       metadatas := Some [[kb_meta]];
       distances := Some [[0x1.999999999999ap-1%float]] |}.

(** A result with one distance but no document and no metadata. *)
Definition ragged_query : list Embedding -> Z -> QueryResult :=
  fun _ _ =>
    {| documents := Some [[]];
       metadatas := Some [[]];
       distances := Some [[0.5%float]] |}.

Definition stub_text : str := py "Customer answer: Please see the fee table.".
Definition stub_generate : GenerateRequest -> option str :=
  fun _ => Some stub_text.
Definition stub_randbelow : nat -> nat := fun _ => 0%nat.
Definition stub_format_2f : float -> str := fun _ => py "0.80".

Definition khmer_question : str :=
  py "fees " ++ [6047; 6077; 6047; 6098; 6031; 6072].

Definition savings_history : list Turn :=
  [(py "what is the minimum balance for savings?", py "...")].

(** A store with two hits, the nearer one listed second. *)
Definition two_hit_query : list Embedding -> Z -> QueryResult :=
  fun _ _ =>
    {| documents := Some [[kb_doc; py "Steps: ask the branch."]];
       metadatas := Some [[kb_meta;
                           {| md_source := Some (py "policy.pdf");
                              md_page := Some 3%Z |}]];
       distances := Some [[1.5%float; 0.5%float]] |}.

(** A store whose only hit comes with a NaN distance. *)
Definition nan_query : list Embedding -> Z -> QueryResult :=
  fun _ _ =>
    {| documents := Some [[kb_doc]];
       metadatas := Some [[kb_meta]];
       distances := Some [[PrimFloat.nan]] |}.

(** Stub loaders for concrete runs of the index building: one Excel
    document, and a PDF folder whose loading fails. *)
Definition stub_excel_docs : str -> list (Doc unit) :=
  fun _ => [{| doc_text := kb_doc; doc_metadata := None |}].
Definition stub_no_docs : str -> list (Doc unit) := fun _ => [].
Definition stub_isdir : str -> bool := fun _ => true.
Definition stub_pdfs_fail : str -> option (list (Doc unit)) := fun _ => None.
Definition stub_embed_texts : list str -> list Embedding :=
  map (fun _ => [0.5%float]).
Definition stub_ids : option (list str) := Some [py "doc-0"; py "doc-1"].

Definition stub_load_model : str -> nat := fun _ => 7%nat.

Definition three_messages : list Message :=
  [{| role := py "user"; content := py "what is the fee for withdrawal?" |};
   {| role := py "assistant"; content := py "Customer answer: 1 USD." |}].

Definition six_turns : list Turn :=
  [(py "q1", py "a1"); (py "q2", py "a2"); (py "q3", py "a3");
   (py "q4", py "a4"); (py "q5", py "a5"); (py "q6", py "a6")].


(* ===================================================================== *)
(** ** Facts about the string primitives *)
(* ===================================================================== *)

Example split_demo :
  split (py "  what  about fees ") = [py "what"; py "about"; py "fees"].
Proof. reflexivity. Qed.

Example strip_demo : rstrip (py "?!.") (strip (py " ok?!. ")) = py "ok".
Proof. reflexivity. Qed.

Example contains_demo :
  contains (py "interest") (py "that is interesting") = true
  /\ contains (py "pin") (py "otp") = false.
Proof. split; reflexivity. Qed.

Example str_of_demo : str_of_nat 12 = py "12" /\ str_of_Z (-3) = py "-3" /\ str_of_nat 0 = py "0".
Proof. repeat split; reflexivity. Qed.

Lemma startswith_spec (p s : str) :
  startswith p s = true <-> exists post, s = p ++ post.
Proof.
  revert s. induction p as [|a p IH]; intros s; simpl.
  - split; [intros _; exists s; reflexivity | reflexivity].
  - destruct s as [|b s].
    + split; [discriminate | intros [post H]; discriminate].
    + rewrite andb_true_iff, N.eqb_eq, IH. split.
      * intros [-> [post ->]]. exists post. reflexivity.
      * intros [post H]. injection H as -> ->. split; [reflexivity | eauto].
Qed.

Lemma contains_spec (sub s : str) :
  contains sub s = true <-> Substring sub s.
Proof.
  unfold Substring. induction s as [|c s IH].
  - simpl. rewrite orb_false_r, startswith_spec. split.
    + intros [post H]. exists [], post. exact H.
    + intros [pre [post H]]. destruct pre as [|x pre]; [|discriminate].
      exists post. exact H.
  - cbn [contains]. rewrite orb_true_iff, startswith_spec, IH. split.
    + intros [[post H] | [pre [post H]]].
      * exists [], post. exact H.
      * exists (c :: pre), post. simpl. rewrite H. reflexivity.
    + intros [pre [post H]]. destruct pre as [|x pre].
      * left. exists post. exact H.
      * right. injection H as -> H. exists pre, post. exact H.
Qed.

#[global] Instance Substring_dec (sub s : str) : Decision (Substring sub s).
Proof.
  destruct (contains sub s) eqn:E.
  - left. apply contains_spec. exact E.
  - right. intros H. apply contains_spec in H. congruence.
Defined.

Lemma Substring_nil_inv (sub : str) : Substring sub [] -> sub = [].
Proof.
  intros [pre [post H]]. symmetry in H.
  apply app_eq_nil in H as [_ H]. apply app_eq_nil in H as [H _]. exact H.
Qed.

Lemma existsb_contains (l : list str) (s : str) :
  existsb (fun m => contains m s) l = true
  <-> exists m, In m l /\ Substring m s.
Proof.
  rewrite existsb_exists. split; intros [m [Hin H]]; exists m;
    (split; [exact Hin | apply contains_spec; exact H]).
Qed.

(* ===================================================================== *)
(** ** Properties of the lexical scorer *)
(* ===================================================================== *)

Lemma indicator_sum (P : str -> Prop) `{!forall x, Decision (P x)}
    (a : str) (D : list str) :
  NoDup D -> a ∈ D ->
  list_sum (map (fun d => if decide (a = d) then 1 else 0)%nat (filter P D))
  = (if decide (P a) then 1 else 0)%nat.
Proof.
  induction 1 as [|d D Hd HD IH]; intros Ha.
  - inversion Ha.
  - rewrite filter_cons.
    assert (Hrest : a ∉ D ->
      list_sum (map (fun d => if decide (a = d) then 1 else 0)%nat (filter P D)) = 0%nat).
    { clear. induction D as [|x D IH]; intros Hn; [reflexivity|].
      rewrite filter_cons. apply not_elem_of_cons in Hn as [Hx Hn].
      destruct (decide (P x)); simpl; [destruct (decide (a = x)); [congruence|]|];
        auto. }
    apply elem_of_cons in Ha as [-> | Ha].
    + destruct (decide (P d)); simpl.
      * destruct (decide (d = d)); [|congruence]. rewrite Hrest; auto.
      * apply Hrest; auto.
    + destruct (decide (P d)); simpl; auto.
      destruct (decide (a = d)) as [-> |]; [contradiction | auto].
Qed.

Lemma list_sum_ones {A} (l : list A) :
  list_sum (map (fun _ => 1%nat) l) = length l.
Proof. induction l; simpl; auto. Qed.

Lemma list_sum_map_add {A} (f g : A -> nat) (l : list A) :
  list_sum (map (fun x => f x + g x)%nat l)
  = (list_sum (map f l) + list_sum (map g l))%nat.
Proof. induction l; simpl; lia. Qed.

Lemma filter_length_by_multiplicity (P : str -> Prop)
    `{!forall x, Decision (P x)} (l D : list str) :
  NoDup D -> (forall x, x ∈ l -> x ∈ D) ->
  length (filter P l) = list_sum (map (multiplicity l) (filter P D)).
Proof.
  intros HD. induction l as [|a l IH]; intros Hsub.
  - unfold multiplicity. simpl. induction (filter P D); simpl; auto.
  - assert (Hm : forall d, multiplicity (a :: l) d
                 = ((if decide (a = d) then 1 else 0) + multiplicity l d)%nat).
    { intros d. unfold multiplicity. rewrite filter_cons.
      destruct (decide (a = d)); reflexivity. }
    rewrite (map_ext _ _ Hm), list_sum_map_add, indicator_sum, <- IH.
    + rewrite filter_cons. destruct (decide (P a)); reflexivity.
    + intros x Hx. apply Hsub. right. exact Hx.
    + exact HD.
    + apply Hsub. left.
Qed.


Lemma drop_while_Forall (P : N -> Prop) (p : N -> bool) (s : str) :
  Forall P s -> Forall P (drop_while p s).
Proof.
  induction 1 as [|c s Hc Hs IH]; simpl; [constructor|].
  destruct (p c); [exact IH | constructor; assumption].
Qed.

Lemma rev_Forall (P : N -> Prop) (s : str) : Forall P s -> Forall P (rev s).
Proof.
  rewrite !Forall_forall. intros H c Hc. apply H.
  apply list_elem_of_In, in_rev, list_elem_of_In. exact Hc.
Qed.

Lemma rstrip_by_Forall (P : N -> Prop) (p : N -> bool) (s : str) :
  Forall P s -> Forall P (rstrip_by p s).
Proof.
  intros H. unfold rstrip_by.
  apply rev_Forall, drop_while_Forall, rev_Forall. exact H.
Qed.

Lemma strip_Forall (P : N -> Prop) (s : str) : Forall P s -> Forall P (strip s).
Proof.
  intros H. unfold strip, lstrip_by.
  apply drop_while_Forall, rstrip_by_Forall. exact H.
Qed.

Lemma ascii_lower_lowered (s : str) :
  isascii s = true -> Forall lowered_ascii (map ascii_lower s).
Proof.
  unfold isascii. induction s as [|c s IH]; simpl; [constructor|].
  intros H. apply andb_true_iff in H as [Hc Hs]. apply N.ltb_lt in Hc.
  constructor; [|apply IH; exact Hs].
  unfold lowered_ascii, ascii_lower.
  destruct ((65 <=? c) && (c <=? 90)) eqn:E.
  - apply andb_true_iff in E as [E1 E2]. apply N.leb_le in E1, E2. lia.
  - apply andb_false_iff in E as [E | E]; apply N.leb_gt in E; lia.
Qed.

Lemma lowered_fixed (s : str) :
  Forall lowered_ascii s -> isascii s = true /\ map ascii_lower s = s.
Proof.
  unfold isascii. induction 1 as [|c s [Hc Hu] _ [IH1 IH2]]; simpl; [auto|].
  rewrite IH1, IH2. split.
  - apply andb_true_iff. split; [apply N.ltb_lt; exact Hc | reflexivity].
  - f_equal. unfold ascii_lower.
    destruct ((65 <=? c) && (c <=? 90)) eqn:E; [|reflexivity].
    apply andb_true_iff in E as [E1 E2]. apply N.leb_le in E1, E2. lia.
Qed.

Section LexicalProperties.

Variable lower_unicode : str -> str.
Local Abbreviation lower := (lower lower_unicode).
Local Abbreviation keyword_score := (keyword_score lower_unicode).
Local Abbreviation classify_intent := (classify_intent lower_unicode).
Local Abbreviation is_followup := (is_followup lower_unicode).

Lemma keyword_score_filter (text : str) (keywords : list str) :
  keyword_score text keywords
  = length (filter (fun kw => Substring kw (lower text)) keywords).
Proof.
  unfold keyword_score. cbv zeta. rewrite list_sum_ones.
  induction keywords as [|kw kws IH]; [reflexivity|].
  rewrite filter_cons. cbn [List.filter].
  destruct (decide (Substring kw (lower text))) as [H|H];
    destruct (contains kw (lower text)) eqn:E.
  - cbn [length]. rewrite IH. reflexivity.
  - apply contains_spec in H. congruence.
  - apply contains_spec in E. contradiction.
  - exact IH.
Qed.

Lemma keyword_score_pos (text : str) (keywords : list str) :
  (0 < keyword_score text keywords)%nat
  <-> exists kw, In kw keywords /\ Substring kw (lower text).
Proof.
  rewrite keyword_score_filter. split.
  - intros H. destruct (filter _ keywords) as [|kw r] eqn:E; [simpl in H; lia|].
    assert (Hin : kw ∈ filter (fun kw => Substring kw (lower text)) keywords)
      by (rewrite E; left).
    apply list_elem_of_filter in Hin as [Hs Hin].
    exists kw. split; [apply list_elem_of_In; exact Hin | exact Hs].
  - intros [kw [Hin Hs]].
    assert (H : kw ∈ filter (fun kw => Substring kw (lower text)) keywords).
    { apply list_elem_of_filter. split; [exact Hs | apply list_elem_of_In; exact Hin]. }
    destruct (filter _ keywords); [inversion H | simpl; lia].
Qed.

(** C8 (as amended).  [keyword_score] counts the entries of the keyword
    list that occur in the lower-cased text as substrings: every list
    position counts at most once, however often its keyword occurs in the
    text, and a keyword listed several times counts once per listing.  In
    [BANK_KEYWORDS] the entries "login", "log in", "password" and "otp" are
    listed twice and every other entry once. *)
Theorem keyword_score_counts_list_entries (text : str) (keywords : list str) :
  keyword_score text keywords
  = length (filter (fun kw => Substring kw (lower text)) keywords)
  /\ keyword_score text keywords
     = list_sum (map (multiplicity keywords)
                     (distinct_matches (fun kw => Substring kw (lower text))
                                       keywords))
  /\ (keyword_score text keywords <= length keywords)%nat
  /\ Forall (fun kw =>
               multiplicity BANK_KEYWORDS kw
               = if bool_decide (kw ∈ map py ["login"; "log in"; "password"; "otp"]%string)
                 then 2%nat else 1%nat)
            BANK_KEYWORDS.
Proof.
  split; [apply keyword_score_filter|]. split; [|split].
  - rewrite keyword_score_filter. unfold distinct_matches.
    apply filter_length_by_multiplicity.
    + apply NoDup_remove_dups.
    + intros x Hx. apply elem_of_remove_dups. exact Hx.
  - rewrite keyword_score_filter. apply length_filter.
  - apply (bool_decide_unpack _). vm_compute. exact I.
Qed.


Lemma keywords_nonempty :
  Forall (fun kw : str => kw <> []) (BANK_KEYWORDS ++ PROBLEM_KEYWORDS).
Proof. apply (bool_decide_unpack _). vm_compute. exact I. Qed.

Lemma lower_nil : lower [] = [].
Proof. reflexivity. Qed.

Lemma gset_meet_nonempty (l1 l2 : list str) :
  (list_to_set l1 : gset str) ∩ list_to_set l2 ≠ ∅
  <-> exists w, In w l2 /\ In w l1.
Proof.
  split.
  - intros H. apply set_choose_L in H as [w Hw].
    apply elem_of_intersection in Hw as [H1 H2].
    apply elem_of_list_to_set in H1, H2.
    exists w. split; apply list_elem_of_In; assumption.
  - intros [w [H2 H1]] Hempty.
    assert (Hw : w ∈ (list_to_set l1 : gset str) ∩ list_to_set l2).
    { apply elem_of_intersection.
      split; apply elem_of_list_to_set, list_elem_of_In; assumption. }
    rewrite Hempty in Hw. apply not_elem_of_empty in Hw. exact Hw.
Qed.

(** C5.  [is_followup] is false on an empty history.  On a non-empty one,
    with [q] the question lower-cased, trimmed and with its trailing '?',
    '!' and '.' removed, it is true exactly when [q] has at most six words,
    or contains one of the continuation markers as a substring, or shares a
    word with the (lower-cased) previous user message. *)
Theorem is_followup_iff (question : str) (history : list Turn) :
  (history = [] -> is_followup question history = false)
  /\ (history <> [] ->
      let q := rstrip (py "?!.") (strip (lower question)) in
      is_followup question history = true
      <-> (length (split q) <= 6)%nat
          \/ (exists m, In m markers /\ Substring m q)
          \/ (exists w, In w (split q)
                /\ In w (split (lower (last_user_question history))))).
Proof.
  split.
  - intros ->. reflexivity.
  - destruct history as [|turn rest]; [congruence|]. intros _ q.
    unfold is_followup. cbv zeta. fold q.
    destruct (Nat.leb_spec (length (split q)) 6) as [Hle|Hgt].
    + split; [intros _; left; exact Hle | reflexivity].
    + destruct (existsb (fun m => contains m q) markers) eqn:Em.
      * split; [intros _ | reflexivity].
        right. left. apply existsb_contains. exact Em.
      * destruct (bool_decide _) eqn:Eb.
        -- split; [intros _ | reflexivity].
           right. right. apply bool_decide_eq_true_1 in Eb.
           apply gset_meet_nonempty in Eb. exact Eb.
        -- split; [discriminate|]. intros [Hle | [Hm | Hw]].
           ++ lia.
           ++ apply existsb_contains in Hm. congruence.
           ++ apply bool_decide_eq_false_1 in Eb. exfalso. apply Eb.
              apply gset_meet_nonempty. exact Hw.
Qed.

(** On a pure-ASCII text the normalised form is already in lower case:
    lower-casing it once more, as the scorer does, changes nothing. *)
Lemma lower_normalised_ascii (chars text : str) :
  isascii text = true ->
  lower (rstrip chars (strip (lower text))) = rstrip chars (strip (lower text)).
Proof.
  intros Ha.
  assert (Hl : Forall lowered_ascii (rstrip chars (strip (lower text)))).
  { unfold rstrip. apply rstrip_by_Forall, strip_Forall.
    unfold lower. rewrite Ha. apply ascii_lower_lowered. exact Ha. }
  apply lowered_fixed in Hl as [H1 H2].
  unfold lower at 1. rewrite H1. exact H2.
Qed.

(** C4.  A text whose normalised form (lower-cased, trimmed, trailing '.',
    '!' and '?' removed, in lower case as the scorer reads it) contains a
    banking keyword or a problem keyword as a substring is classified as
    banking, whatever the history, the punctuation, the WH-words or the
    smalltalk keywords in it; on a pure-ASCII text the normalised form needs
    no further lower-casing; in particular "otp not working" is banking for
    every history. *)
Theorem classify_intent_keyword_banking :
  (forall (text : str) (history : list Turn),
      (exists kw, In kw (BANK_KEYWORDS ++ PROBLEM_KEYWORDS)
                  /\ Substring kw (lower (rstrip (py ".!?") (strip (lower text))))) ->
      classify_intent text history = banking)
  /\ (forall (text : str) (history : list Turn),
        isascii text = true ->
        (exists kw, In kw (BANK_KEYWORDS ++ PROBLEM_KEYWORDS)
                    /\ Substring kw (rstrip (py ".!?") (strip (lower text)))) ->
        classify_intent text history = banking)
  /\ (forall history : list Turn,
        classify_intent (py "otp not working") history = banking).
Proof.
  assert (Hmain : forall (text : str) (history : list Turn),
      (exists kw, In kw (BANK_KEYWORDS ++ PROBLEM_KEYWORDS)
                  /\ Substring kw (lower (rstrip (py ".!?") (strip (lower text))))) ->
      classify_intent text history = banking).
  { intros text history [kw [Hin Hsub]].
    unfold classify_intent. cbv zeta.
    destruct (strip (lower text)) as [|c t] eqn:Et.
    - exfalso. change (rstrip (py ".!?") []) with (@nil N) in Hsub.
      rewrite lower_nil in Hsub. apply Substring_nil_inv in Hsub.
      pose proof keywords_nonempty as Hne. rewrite Forall_forall in Hne.
      apply (Hne kw); [apply list_elem_of_In; exact Hin | exact Hsub].
    - assert (Hscore :
        (0 <? keyword_score (rstrip (py ".!?") (c :: t)) BANK_KEYWORDS)%nat
        || (0 <? keyword_score (rstrip (py ".!?") (c :: t)) PROBLEM_KEYWORDS)%nat
        = true).
      { apply orb_true_iff. apply in_app_or in Hin as [Hb | Hp].
        - left. apply Nat.ltb_lt, keyword_score_pos. eauto.
        - right. apply Nat.ltb_lt, keyword_score_pos. eauto. }
      rewrite Hscore. reflexivity. }
  split; [exact Hmain|]. split; [|intros history; vm_compute; reflexivity].
  intros text history Ha [kw [Hin Hsub]]. apply Hmain.
  exists kw. split; [exact Hin|].
  rewrite lower_normalised_ascii; [exact Hsub | exact Ha].
Qed.

(** C7.  Each of "hi", "hello", "thanks", "ok" and "bye" is classified as
    smalltalk, for every history. *)
Theorem classify_intent_greetings :
  Forall (fun text => forall history : list Turn,
              classify_intent text history = smalltalk)
         (map py ["hi"; "hello"; "thanks"; "ok"; "bye"]%string).
Proof.
  repeat constructor; intros history; vm_compute; reflexivity.
Qed.

(** C10.  Keywords are matched as plain substrings, without word
    boundaries: "that is interesting" is classified as banking for every
    history, because the banking keyword "interest" occurs inside
    "interesting", although the three-word message has no question mark and
    no WH-word, and no other banking or problem keyword occurs in it. *)
Theorem classify_intent_interesting (history : list Turn) :
  classify_intent (py "that is interesting") history = banking
  /\ In (py "interest") BANK_KEYWORDS
  /\ Substring (py "interest") (py "that is interesting")
  /\ contains (py "?") (py "that is interesting") = false
  /\ existsb (fun w => contains w (py "that is interesting")) wh_words = false
  /\ length (split (py "that is interesting")) = 3%nat
  /\ keyword_score (py "that is interesting") BANK_KEYWORDS = 1%nat
  /\ keyword_score (py "that is interesting") PROBLEM_KEYWORDS = 0%nat.
Proof.
  split; [vm_compute; reflexivity|].
  split; [apply list_elem_of_In, (bool_decide_unpack _); vm_compute; exact I|].
  split; [apply contains_spec; vm_compute; reflexivity|].
  repeat split; vm_compute; reflexivity.
Qed.

End LexicalProperties.

(** C8, the claim as stated fails: on the text "otp" the score over
    [BANK_KEYWORDS] is 2, while exactly one distinct keyword of the list
    occurs in the text. *)
Lemma keyword_score_counts_duplicates :
  keyword_score ascii_only (py "otp") BANK_KEYWORDS = 2%nat
  /\ distinct_matches (fun kw => Substring kw (lower ascii_only (py "otp")))
                      BANK_KEYWORDS = [py "otp"].
Proof. split; vm_compute; reflexivity. Qed.

(* ===================================================================== *)
(** ** Facts about binary64 comparison *)
(* ===================================================================== *)

Lemma SFcompare_antisym (x y : spec_float) (c : comparison) :
  SFcompare x y = Some c -> SFcompare y x = Some (CompOpp c).
Proof.
  destruct x as [sx|sx| |sx mx ex], y as [sy|sy| |sy my ey]; simpl;
    try discriminate;
    try (intros H; injection H as <-;
         repeat match goal with b : bool |- _ => destruct b end;
         reflexivity).
  intros H. injection H as <-. f_equal.
  pose proof (Pos.compare_cont_antisym mx my Eq) as Hm. simpl in Hm.
  rewrite <- Hm, (Z.compare_antisym ex ey).
  destruct sx, sy; simpl; try reflexivity;
    destruct (ex ?= ey)%Z; simpl; try reflexivity;
    destruct (Pos.compare_cont Eq mx my); reflexivity.
Qed.

(** [d <= t] excludes [d > t]. *)
Lemma leb_not_gt (d t : float) :
  PrimFloat.leb d t = true -> PrimFloat.ltb t d = false.
Proof.
  rewrite leb_spec, ltb_spec. unfold SFleb, SFltb.
  destruct (SFcompare (Prim2SF d) (Prim2SF t)) as [c|] eqn:E.
  - apply SFcompare_antisym in E. rewrite E.
    destruct c; simpl; congruence.
  - discriminate.
Qed.

(* ===================================================================== *)
(** ** Properties of retrieval and of the answer flow *)
(* ===================================================================== *)

Lemma bind_ret {A B} (a : A) (f : A -> M B) : bind (ret a) f = f a.
Proof. unfold bind, ret. destruct (f a). reflexivity. Qed.

Lemma bind_raise {A B} (e : exn) (f : A -> M B) : bind (raise e) f = raise e.
Proof. reflexivity. Qed.

Lemma bind_call {A B} (ev : Event) (r : A) (f : A -> M B) :
  bind (call ev r) f = (outcome (f r), ev :: trace (f r)).
Proof. unfold bind, call, outcome, trace. destruct (f r). reflexivity. Qed.

Lemma bind_ok {A B} (a : A) (t : list Event) (f : A -> M B) :
  bind (Ok a, t) f = (outcome (f a), t ++ trace (f a)).
Proof. unfold bind, outcome, trace. destruct (f a). reflexivity. Qed.

Lemma index0_head {A} (l : list A) (x : A) : head l = Some x -> index0 l = ret x.
Proof. destruct l; simpl; congruence. Qed.

Lemma zip3_length {A B C} (docs : list A) (metas : list B) (dists : list C) :
  length docs = length dists -> length metas = length dists ->
  length (zip3 docs metas dists) = length dists.
Proof.
  revert metas dists. induction docs as [|d docs IH]; intros [|m metas] [|x dists];
    simpl; try discriminate; auto.
Qed.

Lemma zip3_nil_iff {A B C} (docs : list A) (metas : list B) (dists : list C) :
  zip3 docs metas dists = [] <-> docs = [] \/ metas = [] \/ dists = [].
Proof.
  destruct docs, metas, dists; simpl; split; intros H; auto;
    try discriminate; destruct H as [H | [H | H]]; discriminate.
Qed.


Lemma contains_khmer_spec (text : str) :
  contains_khmer text = true
  <-> exists c, In c text /\ 6016 <= c <= 6143.
Proof.
  unfold contains_khmer. destruct text as [|c0 t].
  - split; [discriminate | intros [c [[] _]]].
  - rewrite existsb_exists. split; intros [c [Hin H]]; exists c;
      (split; [exact Hin|]).
    + apply andb_true_iff in H as [H1 H2].
      apply N.leb_le in H1, H2. lia.
    + apply andb_true_iff. split; apply N.leb_le; lia.
Qed.

Lemma filter_none (f : Event -> bool) (tr : list Event) :
  Forall (fun ev => f ev = false) tr -> List.filter f tr = [].
Proof.
  induction 1 as [|ev tr Hev _ IH]; simpl; [reflexivity|].
  rewrite Hev. exact IH.
Qed.

Lemma filter_all (f : Event -> bool) (tr : list Event) :
  Forall (fun ev => f ev = true) tr -> List.filter f tr = tr.
Proof.
  induction 1 as [|ev tr Hev _ IH]; simpl; [reflexivity|].
  rewrite Hev, IH. reflexivity.
Qed.

(** The fallback answer has the three labelled parts, in order. *)
Lemma fallback_answer_parts :
  exists customer internal steps : str,
    fallback_answer
    = py "Customer answer:" ++ customer ++ nl ++ nl
      ++ py "Internal notes:" ++ internal ++ nl ++ nl
      ++ py "Steps:" ++ steps.
Proof.
  exists (py " I'm not fully sure based on the available information. Please inform the customer that you will double-check and get back to them."),
         (py " Retrieval confidence was low or there is no closely related article in the current knowledge base."),
         (nl ++ py "1) Confirm the customer's product and key details." ++ nl
          ++ py "2) Check the official product policy or internal system manually." ++ nl
          ++ py "3) If still unclear, escalate to a supervisor. (Human handoff recommended.)").
  vm_compute. reflexivity.
Qed.

Section GateProperties.

Variable lower_unicode : str -> str.
Variable encode : list str -> list Embedding.
Variable query : list Embedding -> Z -> QueryResult.
Variable generate_content : GenerateRequest -> option str.
Variable randbelow : nat -> nat.
Variable format_2f : float -> str.

Local Abbreviation lower := (lower lower_unicode).
Local Abbreviation classify_intent := (classify_intent lower_unicode).
Local Abbreviation is_followup := (is_followup lower_unicode).
Local Abbreviation retrieve_context := (retrieve_context encode query).
Local Abbreviation retrieval_question := (retrieval_question lower_unicode).
Local Abbreviation generation_request := (generation_request format_2f).
Local Abbreviation answer_question :=
  (answer_question lower_unicode encode query generate_content randbelow
                   format_2f).

(** What [retrieve_context] returns when the encoder yields an embedding
    and the store yields one batch under each key. *)
Lemma retrieve_context_ok (question : str) (k : Z) (e : Embedding)
    (es : list Embedding) (docs : list str) (metas : list Metadata)
    (dists : list float) :
  encode [question] = e :: es ->
  head (default [[]] (documents (query [e] k))) = Some docs ->
  head (default [[]] (metadatas (query [e] k))) = Some metas ->
  head (default [[]] (distances (query [e] k))) = Some dists ->
  retrieve_context question k
  = (Ok (zip3 docs metas dists, best_of dists),
     [EncodeCall [question]; QueryCall [e] k]).
Proof.
  intros He Hd Hm Hx. unfold retrieve_context.
  rewrite bind_call, He. cbn [index0]. rewrite bind_ret, bind_call.
  rewrite (index0_head _ _ Hd), bind_ret.
  rewrite (index0_head _ _ Hm), bind_ret.
  rewrite (index0_head _ _ Hx), bind_ret.
  destruct dists; reflexivity.
Qed.

(** Whatever happens, [retrieve_context] first encodes the question it was
    given and then makes retrieval calls only. *)
Lemma retrieve_context_trace (question : str) (k : Z) :
  exists rest,
    trace (retrieve_context question k) = EncodeCall [question] :: rest
    /\ Forall (fun ev => is_retrieval ev = true) rest.
Proof.
  unfold retrieve_context. rewrite bind_call.
  destruct (encode [question]) as [|e es]; cbn [index0].
  - exists []. rewrite bind_raise. split; [reflexivity | constructor].
  - rewrite bind_ret, bind_call.
    exists [QueryCall [e] k]. split; [|repeat constructor].
    destruct (default [[]] (documents (query [e] k))); cbn [index0];
      [rewrite bind_raise; reflexivity | rewrite bind_ret].
    destruct (default [[]] (metadatas (query [e] k))); cbn [index0];
      [rewrite bind_raise; reflexivity | rewrite bind_ret].
    destruct (default [[]] (distances (query [e] k))); cbn [index0];
      [rewrite bind_raise; reflexivity | rewrite bind_ret].
    reflexivity.
Qed.

Lemma retrieval_not_generate (tr : list Event) :
  Forall (fun ev => is_retrieval ev = true) tr ->
  Forall (fun ev => is_generate ev = false) tr.
Proof.
  intros H. eapply Forall_impl; [exact H|].
  intros [] Hr; simpl in *; congruence.
Qed.

Lemma retrieve_context_no_generate (question : str) (k : Z) :
  Forall (fun ev => is_generate ev = false) (trace (retrieve_context question k)).
Proof.
  destruct (retrieve_context_trace question k) as [rest [-> H]].
  constructor; [reflexivity | apply retrieval_not_generate; exact H].
Qed.


(** [question or ""] is the question itself. *)
Lemma raw_question (question : str) :
  match question with [] => [] | _ :: _ => question end = question.
Proof. destruct question; reflexivity. Qed.

(** The answer flow after a retrieval that returned, for a question that is
    not Khmer and is classified as banking. *)
Lemma answer_question_after_retrieval (question : str) (k : Z)
    (history : option (list Turn)) (context_docs : list ContextDoc)
    (best_distance : option float) (tr : list Event) :
  contains_khmer question = false ->
  classify_intent (strip (lower question)) (default [] history) = banking ->
  retrieve_context
    (retrieval_question question (strip (lower question)) (default [] history))
    k = (Ok (context_docs, best_distance), tr) ->
  answer_question question k history
  = if match context_docs with [] => true | _ :: _ => false end
       || match best_distance with
          | None => true
          | Some d => above_threshold d
          end
    then (Ok (fallback_answer, top_context context_docs), tr)
    else
      let req := generation_request question context_docs (default [] history) in
      (Ok (match generate_content req with
           | Some (c :: r) => c :: r
           | Some [] | None => NO_ANSWER
           end, top_context context_docs),
       tr ++ [GenerateCall req]).
Proof.
  intros Hk Hc Hr. unfold answer_question. cbv zeta.
  rewrite !raw_question, Hk, Hc. cbn [Intent_eqb]. rewrite Hr, bind_ok.
  destruct (_ || _).
  - cbn. rewrite app_nil_r. reflexivity.
  - rewrite bind_call. cbn. reflexivity.
Qed.

(** The calls of the answer flow on the banking path: those of the
    retrieval, followed by at most one call, to the generator. *)
Lemma answer_question_banking_trace (question : str) (k : Z)
    (history : option (list Turn)) :
  contains_khmer question = false ->
  classify_intent (strip (lower question)) (default [] history) = banking ->
  exists rest,
    trace (answer_question question k history)
    = trace (retrieve_context
               (retrieval_question question (strip (lower question))
                                   (default [] history)) k) ++ rest
    /\ Forall (fun ev => is_retrieval ev = false) rest.
Proof.
  intros Hk Hc.
  destruct (retrieve_context
              (retrieval_question question (strip (lower question))
                                  (default [] history)) k)
    as [[[context_docs best_distance] | e] tr] eqn:Hr.
  - rewrite (answer_question_after_retrieval _ _ _ _ _ _ Hk Hc Hr).
    destruct (_ || _); cbn.
    + exists []. rewrite app_nil_r. split; [reflexivity | constructor].
    + eexists. split; [reflexivity|]. repeat constructor.
  - exists []. split; [|constructor]. rewrite app_nil_r.
    unfold answer_question. cbv zeta.
    rewrite !raw_question, Hk, Hc. cbn [Intent_eqb]. rewrite Hr. reflexivity.
Qed.


Lemma retrieval_question_eq (question : str) (history : list Turn) :
  retrieval_question question (strip (lower question)) history
  = if is_followup (strip (lower question)) history
    then last_user_question history ++ nl ++ py "Follow-up: " ++ question
    else question.
Proof.
  unfold retrieval_question. cbv zeta.
  destruct history as [|turn rest]; [reflexivity|].
  destruct (is_followup _ _); reflexivity.
Qed.

(** C1.  For a question that reaches retrieval (not Khmer, classified as
    banking): when the retrieval returns an empty document list, or no
    minimum distance, or a minimum distance strictly above the threshold
    1.2, [answer_question] returns the fixed three-part fallback answer; the
    snippet is the text of the top retrieved document when there is one and
    "No context retrieved." otherwise; and the generator is not called. *)
Theorem answer_question_low_confidence (question : str) (k : Z)
    (history : option (list Turn)) (context_docs : list ContextDoc)
    (best_distance : option float) (tr : list Event) :
  contains_khmer question = false ->
  classify_intent (strip (lower question)) (default [] history) = banking ->
  retrieve_context
    (retrieval_question question (strip (lower question)) (default [] history))
    k = (Ok (context_docs, best_distance), tr) ->
  (context_docs = [] \/ best_distance = None
   \/ exists d, best_distance = Some d
                /\ PrimFloat.ltb LOW_CONF_THRESHOLD d = true) ->
  answer_question question k history
  = (Ok (fallback_answer,
         match context_docs with
         | [] => py "No context retrieved."
         | (doc, _, _) :: _ => doc
         end), tr)
  /\ Forall (fun ev => is_generate ev = false)
            (trace (answer_question question k history))
  /\ exists customer internal steps : str,
       fallback_answer
       = py "Customer answer:" ++ customer ++ nl ++ nl
         ++ py "Internal notes:" ++ internal ++ nl ++ nl
         ++ py "Steps:" ++ steps.
Proof.
  intros Hk Hc Hr Hlow.
  assert (Hans : answer_question question k history
                 = (Ok (fallback_answer, top_context context_docs), tr)).
  { rewrite (answer_question_after_retrieval _ _ _ _ _ _ Hk Hc Hr).
    destruct Hlow as [-> | [-> | [d [-> Hd]]]].
    - reflexivity.
    - rewrite orb_true_r. reflexivity.
    - unfold above_threshold. rewrite Hd, orb_true_r. reflexivity. }
  split; [exact Hans|]. split; [|exact fallback_answer_parts].
  rewrite Hans. cbn [trace snd].
  replace tr with (trace (retrieve_context
    (retrieval_question question (strip (lower question)) (default [] history)) k))
    by (rewrite Hr; reflexivity).
  apply retrieve_context_no_generate.
Qed.

(** C2.  For a question that reaches retrieval: when the retrieved list is
    non-empty and the minimum distance is at most 1.2, [answer_question]
    calls the generator exactly once, with temperature 0.2, and returns the
    generator's text as it is when it is non-empty, and "Sorry, I could not
    generate an answer." otherwise, together with the text of the first
    retrieved document. *)
Theorem answer_question_generates (question : str) (k : Z)
    (history : option (list Turn)) (doc : str) (meta : Metadata)
    (dist : float) (others : list ContextDoc) (d : float) (tr : list Event) :
  contains_khmer question = false ->
  classify_intent (strip (lower question)) (default [] history) = banking ->
  retrieve_context
    (retrieval_question question (strip (lower question)) (default [] history))
    k = (Ok ((doc, meta, dist) :: others, Some d), tr) ->
  PrimFloat.leb d LOW_CONF_THRESHOLD = true ->
  let req :=
    generation_request question ((doc, meta, dist) :: others)
                       (default [] history) in
  exists answer_text : str,
    answer_question question k history
    = (Ok (answer_text, doc), tr ++ [GenerateCall req])
    /\ (forall text, generate_content req = Some text -> text <> [] ->
                     answer_text = text)
    /\ (generate_content req = None \/ generate_content req = Some [] ->
        answer_text = py "Sorry, I could not generate an answer.")
    /\ temperature req = GEN_TEMPERATURE
    /\ List.filter is_generate (trace (answer_question question k history))
       = [GenerateCall req].
Proof.
  intros Hk Hc Hr Hd req.
  pose proof (answer_question_after_retrieval _ _ _ _ _ _ Hk Hc Hr) as Hans.
  unfold above_threshold in Hans. rewrite (leb_not_gt _ _ Hd) in Hans.
  cbn [orb top_context] in Hans. cbv zeta in Hans. fold req in Hans.
  eexists. split; [exact Hans|]. split; [|split; [|split]].
  - intros text -> Hne. destruct text; [congruence | reflexivity].
  - intros [-> | ->]; reflexivity.
  - reflexivity.
  - rewrite Hans. cbn [trace snd]. rewrite List.filter_app, filter_none.
    + reflexivity.
    + replace tr with (trace (retrieve_context
        (retrieval_question question (strip (lower question))
                            (default [] history)) k))
        by (rewrite Hr; reflexivity).
      apply retrieve_context_no_generate.
Qed.

(** C3.  A question with at least one code point in the Khmer block
    U+1780..U+17FF gets the fixed Khmer reply with the snippet "Khmer
    detected - RAG not used." (with a long dash), whatever the history; no
    collaborator is called, so neither the retriever nor the generator. *)
Theorem answer_question_khmer (question : str) (k : Z)
    (history : option (list Turn)) :
  (exists c, In c question /\ 6016 <= c <= 6143) ->
  answer_question question k history = (Ok (KHMER_REPLY, KHMER_SNIPPET), []).
Proof.
  intros H. apply contains_khmer_spec in H.
  unfold answer_question. cbv zeta. rewrite !raw_question, H. reflexivity.
Qed.

(** C6.  On the banking path the retriever is called on one question only:
    the previous user question, a line break, "Follow-up: " and the raw
    current question when [is_followup] holds (which needs a non-empty
    history), and the raw current question as it is otherwise. *)
Theorem answer_question_retrieval_query (question : str) (k : Z)
    (history : option (list Turn)) :
  contains_khmer question = false ->
  classify_intent (strip (lower question)) (default [] history) = banking ->
  let hist := default [] history in
  let rq :=
    if is_followup (strip (lower question)) hist
    then last_user_question hist ++ nl ++ py "Follow-up: " ++ question
    else question in
  (is_followup (strip (lower question)) hist = true -> hist <> [])
  /\ head (trace (answer_question question k history)) = Some (EncodeCall [rq])
  /\ List.filter is_retrieval (trace (answer_question question k history))
     = trace (retrieve_context rq k).
Proof.
  intros Hk Hc hist rq. split; [|].
  - intros Hf ->. discriminate Hf.
  - destruct (answer_question_banking_trace _ k _ Hk Hc) as [rest [Ht Hrest]].
    rewrite retrieval_question_eq in Ht. fold hist in Ht. fold rq in Ht.
    rewrite Ht.
    destruct (retrieve_context_trace rq k) as [tail [Hq Htail]].
    split.
    + rewrite Hq. reflexivity.
    + rewrite List.filter_app, (filter_none _ rest Hrest), app_nil_r.
      apply filter_all. rewrite Hq. constructor; [reflexivity | exact Htail].
Qed.

(** C9 (as amended).  When the encoder yields an embedding and the store
    yields one batch under each key, [retrieve_context] returns; its
    [best_distance] is [None] exactly when the distances are empty, and its
    context list is empty exactly when one of the three lists is empty.  So
    when the documents, metadatas and distances have the same length, as
    the store returns them, [best_distance] is [None] if and only if the
    context list is empty. *)
Theorem retrieve_context_best_none_iff (question : str) (k : Z)
    (e : Embedding) (es : list Embedding) (docs : list str)
    (metas : list Metadata) (dists : list float) :
  encode [question] = e :: es ->
  head (default [[]] (documents (query [e] k))) = Some docs ->
  head (default [[]] (metadatas (query [e] k))) = Some metas ->
  head (default [[]] (distances (query [e] k))) = Some dists ->
  exists context_docs best_distance,
    outcome (retrieve_context question k) = Ok (context_docs, best_distance)
    /\ (best_distance = None <-> dists = [])
    /\ (context_docs = [] <-> docs = [] \/ metas = [] \/ dists = [])
    /\ (length docs = length dists -> length metas = length dists ->
        length context_docs = length dists
        /\ (best_distance = None <-> context_docs = [])).
Proof.
  intros He Hd Hm Hx.
  rewrite (retrieve_context_ok _ _ _ _ _ _ _ He Hd Hm Hx).
  exists (zip3 docs metas dists), (best_of dists). split; [reflexivity|].
  assert (Hbest : best_of dists = None <-> dists = [])
    by (destruct dists; simpl; split; congruence).
  split; [exact Hbest|]. split; [apply zip3_nil_iff|].
  intros H1 H2. split; [apply zip3_length; assumption|].
  pose proof (zip3_nil_iff docs metas dists) as Hz.
  split.
  - intros Hb. apply Hz. right. right. apply Hbest. exact Hb.
  - intros Hc. apply Hbest. apply Hz in Hc.
    destruct Hc as [-> | [-> | ->]]; try reflexivity;
      destruct dists; try reflexivity; discriminate.
Qed.

End GateProperties.

(* ===================================================================== *)
(** ** Concrete runs *)
(* ===================================================================== *)

(** C1, a run: the only hit lies at distance 1.5, above the threshold; the
    fallback answer comes back with the text of that hit as the snippet. *)
Lemma answer_question_low_confidence_run :
  answer_question ascii_only stub_encode far_query stub_generate
                  stub_randbelow stub_format_2f (py "what are the fees") 5 None
  = (Ok (fallback_answer, kb_doc),
     [EncodeCall [py "what are the fees"]; QueryCall [[0.5%float]] 5]).
Proof.
  refine (proj1 (answer_question_low_confidence
                   ascii_only stub_encode far_query stub_generate
                   stub_randbelow stub_format_2f (py "what are the fees") 5
                   None [(kb_doc, kb_meta, 1.5%float)] (Some 1.5%float)
                   [EncodeCall [py "what are the fees"];
                    QueryCall [[0.5%float]] 5] _ _ _ _)).
  - vm_compute. reflexivity.
  - vm_compute. reflexivity.
  - vm_compute. reflexivity.
  - right. right. exists 1.5%float. split; vm_compute; reflexivity.
Defined.

(** C2, a run: the only hit lies at distance 0.8; the generator is called
    and its text is returned with the text of the hit. *)
Lemma answer_question_generates_run :
  outcome (answer_question ascii_only stub_encode near_query stub_generate
                           stub_randbelow stub_format_2f
                           (py "what are the fees") 5 None)
  = Ok (stub_text, kb_doc).
Proof.
  destruct (answer_question_generates
              ascii_only stub_encode near_query stub_generate
              stub_randbelow stub_format_2f (py "what are the fees") 5 None
              kb_doc kb_meta 0x1.999999999999ap-1%float []
              0x1.999999999999ap-1%float
              [EncodeCall [py "what are the fees"]; QueryCall [[0.5%float]] 5])
    as [answer_text [Hans [Htext _]]].
  - vm_compute. reflexivity.
  - vm_compute. reflexivity.
  - vm_compute. reflexivity.
  - vm_compute. reflexivity.
  - rewrite Hans. cbn [outcome fst]. f_equal. f_equal.
    apply Htext; [reflexivity | discriminate].
Defined.

(** C3, a run on a question with Khmer letters. *)
Lemma answer_question_khmer_run :
  answer_question ascii_only stub_encode near_query stub_generate
                  stub_randbelow stub_format_2f khmer_question 5 None
  = (Ok (KHMER_REPLY, KHMER_SNIPPET), []).
Proof.
  apply answer_question_khmer.
  exists 6047. split; [vm_compute; tauto | lia].
Defined.

(** C4, a run: "I cannot login to the mobile app" contains "login". *)
Lemma classify_intent_keyword_banking_run :
  classify_intent ascii_only (py "I cannot login to the mobile app") []
  = banking.
Proof.
  apply (proj1 (classify_intent_keyword_banking ascii_only)).
  exists (py "login"). split.
  - apply list_elem_of_In, (bool_decide_unpack _). vm_compute. exact I.
  - apply contains_spec. vm_compute. reflexivity.
Defined.

(** C5, a run: "what about for fixed deposit?" after a question on
    savings is a follow-up (five words, and the marker "what about"). *)
Lemma is_followup_iff_run :
  is_followup ascii_only (py "what about for fixed deposit?") savings_history
  = true.
Proof.
  apply (proj2 (is_followup_iff ascii_only _ savings_history)).
  - discriminate.
  - right. left. exists (py "what about"). split.
    + apply list_elem_of_In, (bool_decide_unpack _). vm_compute. exact I.
    + apply contains_spec. vm_compute. reflexivity.
Defined.

(** C6, a run: the follow-up is sent to the retriever after the previous
    question. *)
Lemma answer_question_retrieval_query_run :
  head (trace (answer_question ascii_only stub_encode near_query
                               stub_generate stub_randbelow stub_format_2f
                               (py "what about for fixed deposit?") 5
                               (Some savings_history)))
  = Some (EncodeCall
            [py "what is the minimum balance for savings?" ++ nl
             ++ py "Follow-up: what about for fixed deposit?"]).
Proof.
  refine (proj1 (proj2 (answer_question_retrieval_query
                          ascii_only stub_encode near_query stub_generate
                          stub_randbelow stub_format_2f
                          (py "what about for fixed deposit?") 5
                          (Some savings_history) _ _))).
  - vm_compute. reflexivity.
  - vm_compute. reflexivity.
Defined.

(** C9, a run on a result with one document, one metadata and one
    distance. *)
Lemma retrieve_context_best_none_iff_run :
  exists context_docs best_distance,
    outcome (retrieve_context stub_encode near_query (py "fees") 5)
    = Ok (context_docs, best_distance)
    /\ (best_distance = None <-> context_docs = []).
Proof.
  destruct (retrieve_context_best_none_iff
              stub_encode near_query (py "fees") 5 [0.5%float] []
              [kb_doc] [kb_meta] [0x1.999999999999ap-1%float]
              eq_refl eq_refl eq_refl eq_refl)
    as (context_docs & best_distance & Hout & _ & _ & Hlen).
  exists context_docs, best_distance.
  split; [exact Hout | apply Hlen; reflexivity].
Defined.

(** C9, the claim as stated fails: on a result with one distance but no
    document, [retrieve_context] returns an empty context list together with
    a minimum distance that is not [None]. *)
Lemma retrieve_context_ragged_result :
  exists context_docs best_distance,
    outcome (retrieve_context stub_encode ragged_query (py "fees") 5)
    = Ok (context_docs, best_distance)
    /\ context_docs = []
    /\ best_distance = Some 0.5%float.
Proof. eexists _, _. vm_compute. repeat split. Qed.

(* ===================================================================== *)
(** ** Further properties of the classifier and of the prompt helpers *)
(* ===================================================================== *)

Lemma Substring_trans (a b c : str) :
  Substring a b -> Substring b c -> Substring a c.
Proof.
  intros [p1 [q1 ->]] [p2 [q2 ->]]. exists (p2 ++ p1), (q1 ++ q2).
  rewrite <- !app_assoc. reflexivity.
Qed.

Lemma Substring_refl (x : str) : Substring x x.
Proof. exists [], []. rewrite app_nil_r. reflexivity. Qed.

Lemma Substring_start (x a rest : str) :
  Substring x a -> Substring x (a ++ rest).
Proof.
  intros [pre [post ->]]. exists pre, (post ++ rest).
  rewrite <- !app_assoc. reflexivity.
Qed.

Lemma Substring_skip (x a rest : str) :
  Substring x rest -> Substring x (a ++ rest).
Proof.
  intros [pre [post ->]]. exists (a ++ pre), post.
  rewrite <- !app_assoc. reflexivity.
Qed.

Lemma Substring_start2 (a b rest : str) : Substring (a ++ b) (a ++ b ++ rest).
Proof. exists [], rest. rewrite <- app_assoc. reflexivity. Qed.

Lemma Substring_start3 (a b c rest : str) :
  Substring (a ++ b ++ c) (a ++ b ++ c ++ rest).
Proof. exists [], rest. rewrite <- !app_assoc. reflexivity. Qed.

(** Finds a piece among the pieces of a concatenation. *)
Ltac substring_nav :=
  first [ apply Substring_refl
        | apply Substring_start3
        | apply Substring_start2
        | apply Substring_start; apply Substring_refl
        | apply Substring_skip; substring_nav ].

Lemma Substring_join (sep x : str) (parts : list str) :
  In x parts -> Substring x (join sep parts).
Proof.
  induction parts as [|p rest IH]; [intros []|].
  intros [-> | Hin].
  - destruct rest as [|r rest'].
    + exists [], []. simpl. rewrite app_nil_r. reflexivity.
    + exists [], (sep ++ join sep (r :: rest')). reflexivity.
  - destruct rest as [|r rest']; [destruct Hin|].
    destruct (IH Hin) as [pre [post Hj]].
    exists (p ++ sep ++ pre), post. cbn [join] in *. rewrite Hj.
    rewrite <- !app_assoc. reflexivity.
Qed.

Lemma last_user_question_snoc (history : list Turn) (user_msg bot_msg : str) :
  last_user_question (history ++ [(user_msg, bot_msg)]) = user_msg.
Proof. unfold last_user_question. rewrite List.last_last. reflexivity. Qed.

Section MoreLexicalProperties.

Variable lower_unicode : str -> str.
Variable format_2f : float -> str.
Local Abbreviation lower := (lower lower_unicode).
Local Abbreviation keyword_score := (keyword_score lower_unicode).
Local Abbreviation classify_intent := (classify_intent lower_unicode).
Local Abbreviation is_followup := (is_followup lower_unicode).
Local Abbreviation build_prompt := (build_prompt format_2f).
Local Abbreviation context_str := (context_str format_2f).

Lemma keyword_score_zero (text : str) (keywords : list str) :
  (forall kw, In kw keywords -> ~ Substring kw (lower text)) ->
  (0 <? keyword_score text keywords)%nat = false.
Proof.
  intros H. apply Nat.ltb_ge.
  destruct (Nat.le_gt_cases (keyword_score text keywords) 0) as [Hle|Hgt];
    [exact Hle|].
  apply keyword_score_pos in Hgt as [kw [Hin Hs]]. destruct (H kw Hin Hs).
Qed.

(** X1. a question is never dropped.  A non-blank text with a question mark,
    or with a WH-word in its normalised form, is classified as banking
    unless the normalised form contains "how are you" or "how's it going",
    whatever keywords it has or lacks. *)
Theorem classify_intent_question_banking (text : str) (history : list Turn) :
  strip (lower text) <> [] ->
  (Substring (py "?") text
   \/ exists w, In w wh_words
        /\ Substring w (rstrip (py ".!?") (strip (lower text)))) ->
  ~ Substring (py "how are you") (rstrip (py ".!?") (strip (lower text))) ->
  ~ Substring (py "how's it going") (rstrip (py ".!?") (strip (lower text))) ->
  classify_intent text history = banking.
Proof.
  intros Ht Hq Hn1 Hn2. unfold classify_intent. cbv zeta.
  destruct (strip (lower text)) as [|c t] eqn:Et; [congruence|].
  destruct (_ || _); [reflexivity|].
  assert (Hqw : contains (py "?") text
                || existsb (fun w => contains w (rstrip (py ".!?") (c :: t)))
                           wh_words = true).
  { apply orb_true_iff. destruct Hq as [Hq | Hw].
    - left. apply contains_spec. exact Hq.
    - right. apply existsb_contains. exact Hw. }
  rewrite Hqw.
  destruct (contains (py "how are you") _) eqn:E1;
    [apply contains_spec in E1; contradiction|].
  destruct (contains (py "how's it going") _) eqn:E2;
    [apply contains_spec in E2; contradiction|].
  reflexivity.
Qed.

(** X2. chit-chat questions.  A non-blank text without any banking or
    problem keyword whose normalised form contains "how are you" or "how's
    it going" is classified as smalltalk, with or without a question
    mark. *)
Theorem classify_intent_chitchat (text : str) (history : list Turn) :
  strip (lower text) <> [] ->
  (forall kw, In kw (BANK_KEYWORDS ++ PROBLEM_KEYWORDS) ->
     ~ Substring kw (lower (rstrip (py ".!?") (strip (lower text))))) ->
  (Substring (py "how are you") (rstrip (py ".!?") (strip (lower text)))
   \/ Substring (py "how's it going") (rstrip (py ".!?") (strip (lower text)))) ->
  classify_intent text history = smalltalk.
Proof.
  intros Ht Hkw Hc. unfold classify_intent. cbv zeta.
  destruct (strip (lower text)) as [|c t] eqn:Et; [congruence|].
  rewrite !keyword_score_zero
    by (intros kw Hin; apply Hkw, in_or_app; auto).
  cbn [orb].
  assert (Hwh : existsb (fun w => contains w (rstrip (py ".!?") (c :: t)))
                        wh_words = true).
  { apply existsb_contains. exists (py "how"). split; [simpl; auto|].
    destruct Hc as [Hc | Hc]; (eapply Substring_trans; [|exact Hc]).
    - exists [], (py " are you"). reflexivity.
    - exists [], (py "'s it going"). reflexivity. }
  rewrite Hwh, orb_true_r.
  assert (Hcc : contains (py "how are you") (rstrip (py ".!?") (c :: t))
                || contains (py "how's it going") (rstrip (py ".!?") (c :: t))
                = true).
  { apply orb_true_iff.
    destruct Hc as [Hc | Hc]; [left | right]; apply contains_spec; exact Hc. }
  rewrite Hcc. reflexivity.
Qed.

(** X3. only the last turn counts.  [is_followup] reads the history only
    through the user message of its last turn: earlier turns and the
    assistant's replies do not change its result. *)
Theorem is_followup_last_turn_only (question : str) (history : list Turn)
    (user_msg bot_msg bot_msg' : str) :
  is_followup question (history ++ [(user_msg, bot_msg)])
  = is_followup question [(user_msg, bot_msg')].
Proof.
  unfold is_followup. cbv zeta.
  rewrite (last_user_question_snoc history).
  change (last_user_question [(user_msg, bot_msg')]) with user_msg.
  destruct history; reflexivity.
Qed.

(** X4. bounded memory.  With a positive [max_turns], the history prefix is
    built from the last [max_turns] turns only: turns before them do not
    change the text. *)
Theorem build_history_prefix_window (older recent : list Turn)
    (max_turns : nat) :
  (0 < max_turns)%nat -> length recent = max_turns ->
  build_history_prefix (older ++ recent) max_turns
  = build_history_prefix recent max_turns.
Proof.
  intros Hpos Hlen. unfold build_history_prefix.
  destruct max_turns as [|n]; [lia|].
  destruct recent as [|r recent']; [discriminate|].
  assert (Hskip : skipn (length (older ++ r :: recent') - S n)
                        (older ++ r :: recent') = r :: recent').
  { rewrite length_app, Hlen.
    replace (length older + S n - S n)%nat with (length older) by lia.
    apply drop_app_length. }
  rewrite Hskip, Hlen, Nat.sub_diag. cbn [skipn].
  destruct (older ++ r :: recent') eqn:E; [|reflexivity].
  apply app_eq_nil in E as [_ E]. discriminate.
Qed.

(** X5. what the prompt carries.  The user prompt built for the generator
    contains the history text, the question, and for every retrieved
    document its numbered header and its full text; the system instruction
    does not depend on the inputs. *)
Theorem build_prompt_contents (question : str)
    (context_docs : list ContextDoc) (history_text : str) :
  fst (build_prompt question context_docs history_text)
  = system_instruction_text
  /\ Substring history_text (snd (build_prompt question context_docs history_text))
  /\ Substring (py "Agent's question: " ++ question)
               (snd (build_prompt question context_docs history_text))
  /\ forall (i : nat) (doc : str) (meta : Metadata) (dist : float),
       context_docs !! i = Some (doc, meta, dist) ->
       Substring (py "[Doc " ++ str_of_nat (i + 1) ++ py " | ")
                 (snd (build_prompt question context_docs history_text))
       /\ Substring doc (snd (build_prompt question context_docs history_text)).
Proof.
  unfold build_prompt. cbv zeta. cbn [fst snd].
  split; [reflexivity|]. split; [substring_nav|]. split; [substring_nav|].
  intros i doc meta dist Hi.
  assert (Hin : In (context_str i (doc, meta, dist))
                   (imap context_str context_docs)).
  { apply list_elem_of_In, list_elem_of_lookup. exists i.
    rewrite list_lookup_imap.
    transitivity (context_str i <$> Some (doc, meta, dist));
      [f_equal; exact Hi | reflexivity]. }
  assert (Hblock : forall x, Substring x (context_str i (doc, meta, dist)) ->
    Substring x
      (match imap context_str context_docs with
       | [] => py "No context found."
       | _ :: _ => join (nl ++ nl ++ py "---" ++ nl ++ nl)
                        (imap context_str context_docs)
       end)).
  { intros x Hx. eapply Substring_trans; [exact Hx|].
    destruct (imap context_str context_docs) eqn:E; [destruct Hin|].
    rewrite <- E in *. apply Substring_join. exact Hin. }
  split; do 5 apply Substring_skip; apply Substring_start; apply Hblock;
    unfold context_str; cbv zeta; substring_nav.
Qed.


(** X6. when a message is dropped as smalltalk.  [classify_intent] returns
    smalltalk only for a blank text, or for a text without any banking or
    problem keyword whose normalised form contains "how are you" or "how's
    it going", or has at most six words, or has at most twelve words and a
    meta-intent phrase.  So a message of more than twelve words is never
    smalltalk unless it contains one of the two chit-chat phrases. *)
Theorem classify_intent_smalltalk_only_if (text : str) (history : list Turn) :
  classify_intent text history = smalltalk ->
  strip (lower text) = []
  \/ ((forall kw, In kw (BANK_KEYWORDS ++ PROBLEM_KEYWORDS) ->
         ~ Substring kw (lower (rstrip (py ".!?") (strip (lower text)))))
      /\ (Substring (py "how are you") (rstrip (py ".!?") (strip (lower text)))
          \/ Substring (py "how's it going")
                       (rstrip (py ".!?") (strip (lower text)))
          \/ (length (split (rstrip (py ".!?") (strip (lower text)))) <= 6)%nat
          \/ ((length (split (rstrip (py ".!?") (strip (lower text)))) <= 12)%nat
              /\ exists phrase,
                   In phrase (map py ["question"; "want to ask"; "can i ask";
                                      "can you answer"; "you can answer"]%string)
                   /\ Substring phrase
                        (rstrip (py ".!?") (strip (lower text)))))).
Proof.
  unfold classify_intent. cbv zeta.
  destruct (strip (lower text)) as [|c t] eqn:Et; [left; reflexivity|].
  set (stripped := rstrip (py ".!?") (c :: t)).
  intros H. right.
  destruct ((0 <? keyword_score stripped BANK_KEYWORDS)%nat
            || (0 <? keyword_score stripped PROBLEM_KEYWORDS)%nat) eqn:Es;
    [discriminate|].
  apply orb_false_iff in Es as [Eb Ep]. apply Nat.ltb_ge in Eb, Ep.
  split.
  { intros kw Hin Hs. apply in_app_or in Hin as [Hin | Hin].
    - assert (0 < keyword_score stripped BANK_KEYWORDS)%nat
        by (apply keyword_score_pos; eauto). lia.
    - assert (0 < keyword_score stripped PROBLEM_KEYWORDS)%nat
        by (apply keyword_score_pos; eauto). lia. }
  destruct (contains (py "?") text || _) eqn:Eq.
  { destruct (contains (py "how are you") stripped) eqn:E1;
      [left; apply contains_spec; exact E1|].
    destruct (contains (py "how's it going") stripped) eqn:E2;
      [right; left; apply contains_spec; exact E2|].
    discriminate. }
  assert (Htail : (if (length (split stripped) <=? 4)%nat
                      && (keyword_score stripped BANK_KEYWORDS =? 0)%nat
                   then smalltalk else banking) = smalltalk ->
                  (length (split stripped) <= 6)%nat).
  { destruct (Nat.leb_spec (length (split stripped)) 4); [lia|].
    cbn. discriminate. }
  destruct (_ && (length (split stripped) <=? 12)%nat) eqn:Esm;
    [|right; right; left; apply Htail; exact H].
  apply andb_true_iff in Esm as [_ E12]. apply Nat.leb_le in E12.
  destruct (Nat.leb_spec (length (split stripped)) 6) as [H6|H6];
    [right; right; left; exact H6|].
  right. right. right. split; [exact E12|].
  destruct (contains (py "question") stripped && _ || _) eqn:Em1.
  { apply orb_true_iff in Em1 as [Em | Em].
    - apply andb_true_iff in Em as [Em _].
      exists (py "question"). split; [simpl; auto | apply contains_spec; exact Em].
    - exists (py "want to ask").
      split; [simpl; auto | apply contains_spec; exact Em]. }
  destruct (contains (py "can i ask") stripped || _ || _) eqn:Em2.
  { apply orb_true_iff in Em2 as [Em | Em];
      [apply orb_true_iff in Em as [Em | Em]|].
    - exists (py "can i ask").
      split; [simpl; auto | apply contains_spec; exact Em].
    - exists (py "can you answer").
      split; [simpl; auto 6 | apply contains_spec; exact Em].
    - exists (py "you can answer").
      split; [simpl; auto 6 | apply contains_spec; exact Em]. }
  apply Htail in H. lia.
Qed.

End MoreLexicalProperties.

(* ===================================================================== *)
(** ** More facts about binary64 comparison *)
(* ===================================================================== *)

Lemma SFcompare_refl (x : spec_float) :
  x <> S754_nan -> SFcompare x x = Some Eq.
Proof.
  destruct x as [s|s| |s m e]; simpl; intros H; try congruence.
  - destruct s; reflexivity.
  - rewrite Z.compare_refl, Pos.compare_cont_refl. destruct s; reflexivity.
Qed.

Lemma SFltb_irrefl (x : spec_float) : SFltb x x = false.
Proof.
  unfold SFltb. destruct x as [s|s| |s m e]; try reflexivity;
    rewrite SFcompare_refl; congruence.
Qed.

Lemma SFltb_trans (x y z : spec_float) :
  SFltb x y = true -> SFltb y z = true -> SFltb x z = true.
Proof.
  unfold SFltb.
  destruct x as [sx|sx| |sx mx ex], y as [sy|sy| |sy my ey],
           z as [sz|sz| |sz mz ez]; simpl; try discriminate;
    repeat match goal with b : bool |- _ => destruct b end;
    simpl; try discriminate; try reflexivity;
    change (Pos.compare_cont Eq mx my) with (mx ?= my)%positive;
    change (Pos.compare_cont Eq my mz) with (my ?= mz)%positive;
    change (Pos.compare_cont Eq mx mz) with (mx ?= mz)%positive;
    destruct (Z.compare_spec ex ey), (Z.compare_spec ey ez),
             (Z.compare_spec ex ez);
    simpl; try discriminate; try reflexivity; try lia;
    destruct (Pos.compare_spec mx my), (Pos.compare_spec my mz),
             (Pos.compare_spec mx mz);
    simpl; try discriminate; try reflexivity; lia.
Qed.

Lemma ltb_irrefl (x : float) : PrimFloat.ltb x x = false.
Proof. rewrite ltb_spec. apply SFltb_irrefl. Qed.

Lemma ltb_trans (x y z : float) :
  PrimFloat.ltb x y = true -> PrimFloat.ltb y z = true ->
  PrimFloat.ltb x z = true.
Proof. rewrite !ltb_spec. apply SFltb_trans. Qed.

(** Nothing lies strictly below or above a NaN. *)
Lemma nan_not_gt (t d : float) :
  PrimFloat.eqb d d = false -> PrimFloat.ltb t d = false.
Proof.
  rewrite FloatAxioms.eqb_spec, ltb_spec. unfold SFeqb, SFltb. intros H.
  destruct (Prim2SF d) as [s|s| |s m e] eqn:E;
    try (rewrite SFcompare_refl in H; congruence).
  destruct (Prim2SF t); reflexivity.
Qed.

Lemma py_min_fold (r seen : list float) (m0 : float) :
  In m0 seen ->
  (forall y, In y seen -> PrimFloat.ltb y m0 = false) ->
  In (py_min m0 r) (seen ++ r)
  /\ forall y, In y (seen ++ r) -> PrimFloat.ltb y (py_min m0 r) = false.
Proof.
  unfold py_min. revert seen m0. induction r as [|x r IH]; intros seen m0 Hin Hlow.
  - rewrite app_nil_r. auto.
  - cbn [fold_left].
    replace (seen ++ x :: r) with ((seen ++ [x]) ++ r)
      by (rewrite <- app_assoc; reflexivity).
    destruct (PrimFloat.ltb x m0) eqn:E; apply IH.
    + apply in_or_app. right. left. reflexivity.
    + intros y Hy. apply in_app_or in Hy as [Hy | [<- | []]].
      * destruct (PrimFloat.ltb y x) eqn:Eyx; [|reflexivity].
        rewrite <- (Hlow y Hy). symmetry. eapply ltb_trans; eassumption.
      * apply ltb_irrefl.
    + apply in_or_app. left. exact Hin.
    + intros y Hy. apply in_app_or in Hy as [Hy | [<- | []]]; auto.
Qed.

Lemma zip3_lookup {A B C} (docs : list A) (metas : list B) (dists : list C)
    (i : nat) :
  zip3 docs metas dists !! i
  = match docs !! i, metas !! i, dists !! i with
    | Some d, Some m, Some x => Some (d, m, x)
    | _, _, _ => None
    end.
Proof.
  revert metas dists i.
  induction docs as [|d docs IH]; intros [|m metas] [|x dists] [|i];
    try reflexivity; cbn; try apply IH; repeat case_match; reflexivity.
Qed.

Lemma zip3_length_min {A B C} (docs : list A) (metas : list B)
    (dists : list C) :
  length (zip3 docs metas dists)
  = Nat.min (length docs) (Nat.min (length metas) (length dists)).
Proof.
  revert metas dists.
  induction docs as [|d docs IH]; intros [|m metas] [|x dists]; simpl;
    try reflexivity.
  rewrite IH. reflexivity.
Qed.

(* ===================================================================== *)
(** ** Further properties of retrieval and of the answer flow *)
(* ===================================================================== *)


Lemma drop_while_all (p : N -> bool) (s : str) :
  Forall (fun c => p c = true) s -> drop_while p s = [].
Proof.
  induction 1 as [|c s Hc _ IH]; simpl; [reflexivity|]. rewrite Hc. exact IH.
Qed.

Lemma ascii_space_fixed (c : N) :
  c < 128 -> isspace c = true -> ascii_lower c = c.
Proof.
  intros Hc Hs. unfold ascii_lower.
  destruct ((65 <=? c) && (c <=? 90)) eqn:E; [|reflexivity].
  apply andb_true_iff in E as [E1 E2]. apply N.leb_le in E1, E2.
  unfold isspace in Hs.
  repeat (apply orb_true_iff in Hs as [Hs | Hs]);
    repeat match goal with
           | H : _ && _ = true |- _ => apply andb_true_iff in H as [? ?]
           | H : (_ <=? _) = true |- _ => apply N.leb_le in H
           | H : (_ =? _) = true |- _ => apply N.eqb_eq in H
           end; lia.
Qed.

Lemma ascii_not_khmer (text : str) :
  Forall (fun c => c < 128) text -> contains_khmer text = false.
Proof.
  intros H. destruct (contains_khmer text) eqn:E; [|reflexivity].
  apply contains_khmer_spec in E as [c [Hin Hc]].
  rewrite Forall_forall in H. apply list_elem_of_In, H in Hin. lia.
Qed.

Lemma head_default_none {A} (o : option (list (list A))) :
  head (default [[]] o) = None <-> o = Some [].
Proof.
  destruct o as [[|b bs]|]; simpl; split; intros H; congruence.
Qed.

Section MoreGateProperties.

Variable lower_unicode : str -> str.
Variable encode : list str -> list Embedding.
Variable query : list Embedding -> Z -> QueryResult.
Variable generate_content : GenerateRequest -> option str.
Variable randbelow : nat -> nat.
Variable format_2f : float -> str.

Local Abbreviation lower := (lower lower_unicode).
Local Abbreviation classify_intent := (classify_intent lower_unicode).
Local Abbreviation retrieve_context := (retrieve_context encode query).
Local Abbreviation retrieval_question := (retrieval_question lower_unicode).
Local Abbreviation generation_request := (generation_request format_2f).
Local Abbreviation answer_question :=
  (answer_question lower_unicode encode query generate_content randbelow
                   format_2f).

(** Every run of [retrieve_context], by cases on what the encoder and the
    store hand back. *)
Lemma retrieve_context_cases (question : str) (k : Z) :
  retrieve_context question k
  = match encode [question] with
    | [] => (Raise IndexError, [EncodeCall [question]])
    | e :: _ =>
        (match head (default [[]] (documents (query [e] k))),
               head (default [[]] (metadatas (query [e] k))),
               head (default [[]] (distances (query [e] k))) with
         | Some docs, Some metas, Some dists =>
             Ok (zip3 docs metas dists, best_of dists)
         | _, _, _ => Raise IndexError
         end,
         [EncodeCall [question]; QueryCall [e] k])
    end.
Proof.
  destruct (encode [question]) as [|e es] eqn:He.
  - unfold retrieve_context. rewrite bind_call, He. reflexivity.
  - destruct (head (default [[]] (documents (query [e] k)))) as [docs|] eqn:Hd;
    [destruct (head (default [[]] (metadatas (query [e] k)))) as [metas|] eqn:Hm;
     [destruct (head (default [[]] (distances (query [e] k)))) as [dists|] eqn:Hx|]|].
    + apply (retrieve_context_ok _ _ _ _ _ _ _ _ _ He Hd Hm Hx).
    + unfold retrieve_context.
      rewrite bind_call, He. cbn [index0]. rewrite bind_ret, bind_call.
      rewrite (index0_head _ _ Hd), bind_ret, (index0_head _ _ Hm), bind_ret.
      destruct (default [[]] (distances (query [e] k))); [|discriminate].
      reflexivity.
    + unfold retrieve_context.
      rewrite bind_call, He. cbn [index0]. rewrite bind_ret, bind_call.
      rewrite (index0_head _ _ Hd), bind_ret.
      destruct (default [[]] (metadatas (query [e] k))); [|discriminate].
      reflexivity.
    + unfold retrieve_context.
      rewrite bind_call, He. cbn [index0]. rewrite bind_ret, bind_call.
      destruct (default [[]] (documents (query [e] k))); [|discriminate].
      reflexivity.
Qed.

(** The canned reply of the smalltalk path. *)
Lemma answer_question_smalltalk_path (question : str) (k : Z)
    (history : option (list Turn)) :
  contains_khmer question = false ->
  classify_intent (strip (lower question)) (default [] history) = smalltalk ->
  answer_question question k history
  = (Ok (nth (randbelow (length SMALLTALK_REPLIES)
              mod length SMALLTALK_REPLIES)%nat SMALLTALK_REPLIES [],
         SMALLTALK_SNIPPET),
     [ChoiceCall SMALLTALK_REPLIES]).
Proof.
  intros Hk Hc. unfold answer_question. cbv zeta.
  rewrite !raw_question, Hk, Hc. cbn [Intent_eqb].
  unfold random_choice. rewrite bind_call. reflexivity.
Qed.

Lemma smalltalk_reply_in_pool :
  In (nth (randbelow (length SMALLTALK_REPLIES)
           mod length SMALLTALK_REPLIES)%nat SMALLTALK_REPLIES [])
     SMALLTALK_REPLIES.
Proof.
  apply nth_In. apply Nat.mod_upper_bound. discriminate.
Qed.


Lemma answer_question_khmer_path (question : str) (k : Z)
    (history : option (list Turn)) :
  contains_khmer question = true ->
  answer_question question k history = (Ok (KHMER_REPLY, KHMER_SNIPPET), []).
Proof.
  intros H. unfold answer_question. cbv zeta.
  rewrite !raw_question, H. reflexivity.
Qed.

Lemma answer_question_retrieval_raised (question : str) (k : Z)
    (history : option (list Turn)) (e : exn) (tr : list Event) :
  contains_khmer question = false ->
  classify_intent (strip (lower question)) (default [] history) = banking ->
  retrieve_context
    (retrieval_question question (strip (lower question)) (default [] history))
    k = (Raise e, tr) ->
  answer_question question k history = (Raise e, tr).
Proof.
  intros Hk Hc Hr. unfold answer_question. cbv zeta.
  rewrite !raw_question, Hk, Hc. cbn [Intent_eqb]. rewrite Hr. reflexivity.
Qed.

Lemma blank_normalised (question : str) :
  Forall (fun c => c < 128 /\ isspace c = true) question ->
  strip (lower question) = [].
Proof.
  intros H.
  assert (Ha : isascii question = true).
  { unfold isascii. apply forallb_forall. intros c Hc.
    rewrite Forall_forall in H. apply list_elem_of_In, H in Hc.
    apply N.ltb_lt. tauto. }
  assert (Hm : map ascii_lower question = question).
  { clear Ha. induction H as [|c s [Hc Hs] _ IH]; simpl; [reflexivity|].
    rewrite IH, (ascii_space_fixed c Hc Hs). reflexivity. }
  unfold lower. rewrite Ha, Hm. unfold strip, rstrip_by, lstrip_by.
  rewrite (drop_while_all isspace (rev question)); [reflexivity|].
  apply rev_Forall. eapply Forall_impl; [exact H|]. simpl. tauto.
Qed.

(** X7. the smalltalk path.  A question that is not Khmer and is classified
    as smalltalk is answered with one of the four canned replies and the
    fixed smalltalk snippet; the only call made is the random draw, so
    neither the encoder, the vector store nor the generator is used. *)
Theorem answer_question_smalltalk (question : str) (k : Z)
    (history : option (list Turn)) :
  contains_khmer question = false ->
  classify_intent (strip (lower question)) (default [] history) = smalltalk ->
  exists reply,
    In reply SMALLTALK_REPLIES
    /\ answer_question question k history
       = (Ok (reply, SMALLTALK_SNIPPET), [ChoiceCall SMALLTALK_REPLIES]).
Proof.
  intros Hk Hc. eexists. split; [apply smalltalk_reply_in_pool|].
  apply answer_question_smalltalk_path; assumption.
Qed.

(** X8. blank input.  An empty question, or one made of ASCII white space
    only, never reaches retrieval: it gets a canned smalltalk reply, for
    every history. *)
Theorem answer_question_blank (question : str) (k : Z)
    (history : option (list Turn)) :
  Forall (fun c => c < 128 /\ isspace c = true) question ->
  exists reply,
    In reply SMALLTALK_REPLIES
    /\ answer_question question k history
       = (Ok (reply, SMALLTALK_SNIPPET), [ChoiceCall SMALLTALK_REPLIES]).
Proof.
  intros H. eexists. split; [apply smalltalk_reply_in_pool|].
  apply answer_question_smalltalk_path.
  - apply ascii_not_khmer. eapply Forall_impl; [exact H|]. simpl. tauto.
  - rewrite (blank_normalised _ H). reflexivity.
Qed.


(** X10. the calls of one answer.  Whatever the input, [answer_question]
    makes no call (Khmer), or one random draw (smalltalk), or the retrieval
    calls on the retrieval question, with the caller's [k] as the number of
    results, followed by at most one generation request, which carries the
    model name "gemini-2.5-flash" and temperature 0.2. *)
Theorem answer_question_calls (question : str) (k : Z)
    (history : option (list Turn)) :
  let rq := retrieval_question question (strip (lower question))
                               (default [] history) in
  let tr := trace (answer_question question k history) in
  tr = []
  \/ tr = [ChoiceCall SMALLTALK_REPLIES]
  \/ tr = [EncodeCall [rq]]
  \/ (exists e, tr = [EncodeCall [rq]; QueryCall [e] k])
  \/ (exists e req,
        tr = [EncodeCall [rq]; QueryCall [e] k; GenerateCall req]
        /\ model req = GEMINI_MODEL
        /\ temperature req = GEN_TEMPERATURE).
Proof.
  intros rq tr. subst tr.
  destruct (contains_khmer question) eqn:Hk.
  { rewrite (answer_question_khmer_path _ _ _ Hk). auto. }
  destruct (classify_intent (strip (lower question)) (default [] history)) eqn:Hc.
  { rewrite (answer_question_smalltalk_path _ _ _ Hk Hc). auto. }
  pose proof (retrieve_context_cases rq k) as Hcases.
  destruct (encode [rq]) as [|e es].
  - rewrite (answer_question_retrieval_raised _ _ _ _ _ Hk Hc Hcases). auto.
  - match type of Hcases with _ = (?o, _) => destruct o as [[cd bd]|e'] end.
    + rewrite (answer_question_after_retrieval _ _ _ _ _ _ _ _ _ _ _ _ Hk Hc Hcases).
      destruct (_ || _); cbn.
      * right. right. right. left. eauto.
      * right. right. right. right. eexists _, _.
        split; [reflexivity|]. split; reflexivity.
    + rewrite (answer_question_retrieval_raised _ _ _ _ _ Hk Hc Hcases).
      right. right. right. left. eauto.
Qed.

(** X11. a NaN distance passes the gate.  When the retrieved list is
    non-empty and the minimum distance is a NaN, the comparison with the
    threshold is false, so the answer is generated and not the fallback. *)
Theorem answer_question_nan_distance (question : str) (k : Z)
    (history : option (list Turn)) (doc : str) (meta : Metadata)
    (dist : float) (others : list ContextDoc) (d : float) (tr : list Event) :
  contains_khmer question = false ->
  classify_intent (strip (lower question)) (default [] history) = banking ->
  retrieve_context
    (retrieval_question question (strip (lower question)) (default [] history))
    k = (Ok ((doc, meta, dist) :: others, Some d), tr) ->
  PrimFloat.eqb d d = false ->
  exists answer_text,
    answer_question question k history
    = (Ok (answer_text, doc),
       tr ++ [GenerateCall (generation_request question
                              ((doc, meta, dist) :: others)
                              (default [] history))]).
Proof.
  intros Hk Hc Hr Hnan.
  pose proof (answer_question_after_retrieval
                lower_unicode encode query generate_content randbelow
                format_2f _ _ _ _ _ _ Hk Hc Hr) as Hans.
  unfold above_threshold in Hans. rewrite (nan_not_gt _ _ Hnan) in Hans.
  cbn [orb top_context] in Hans. cbv zeta in Hans.
  eexists. exact Hans.
Qed.

(** X12. the best distance is a minimum.  When the store returns at least
    one distance, [best_distance] is one of the returned distances and no
    returned distance is strictly smaller. *)
Theorem retrieve_context_best_is_minimum (question : str) (k : Z)
    (e : Embedding) (es : list Embedding) (docs : list str)
    (metas : list Metadata) (d : float) (r : list float) :
  encode [question] = e :: es ->
  head (default [[]] (documents (query [e] k))) = Some docs ->
  head (default [[]] (metadatas (query [e] k))) = Some metas ->
  head (default [[]] (distances (query [e] k))) = Some (d :: r) ->
  exists context_docs best,
    outcome (retrieve_context question k) = Ok (context_docs, Some best)
    /\ In best (d :: r)
    /\ forall y, In y (d :: r) -> PrimFloat.ltb y best = false.
Proof.
  intros He Hd Hm Hx.
  rewrite (retrieve_context_ok _ _ _ _ _ _ _ _ _ He Hd Hm Hx).
  eexists _, _. split; [reflexivity|].
  apply (py_min_fold r [d] d).
  - left. reflexivity.
  - intros y [<- | []]. apply ltb_irrefl.
Qed.

(** X13. the context list pairs the three lists position by position.  Its
    length is the least of the three lengths, and its [i]-th entry is the
    [i]-th document with the [i]-th metadata and the [i]-th distance, in
    the order of the store. *)
Theorem retrieve_context_pairs (question : str) (k : Z)
    (e : Embedding) (es : list Embedding) (docs : list str)
    (metas : list Metadata) (dists : list float) :
  encode [question] = e :: es ->
  head (default [[]] (documents (query [e] k))) = Some docs ->
  head (default [[]] (metadatas (query [e] k))) = Some metas ->
  head (default [[]] (distances (query [e] k))) = Some dists ->
  exists context_docs best_distance,
    outcome (retrieve_context question k) = Ok (context_docs, best_distance)
    /\ length context_docs
       = Nat.min (length docs) (Nat.min (length metas) (length dists))
    /\ forall i : nat,
         context_docs !! i
         = match docs !! i, metas !! i, dists !! i with
           | Some doc, Some meta, Some dist => Some (doc, meta, dist)
           | _, _, _ => None
           end.
Proof.
  intros He Hd Hm Hx.
  rewrite (retrieve_context_ok _ _ _ _ _ _ _ _ _ He Hd Hm Hx).
  exists (zip3 docs metas dists), (best_of dists).
  split; [reflexivity|]. split; [apply zip3_length_min|].
  intros i. apply zip3_lookup.
Qed.

(** X14. when retrieval fails.  [retrieve_context] raises [IndexError]
    exactly when the encoder returns no embedding or the store returns an
    empty list of batches under one of the three keys.  A key that is
    absent from the result counts as one empty batch: no error, and an
    empty context list when it is the documents. *)
Theorem retrieve_context_raises (question : str) (k : Z) :
  (outcome (retrieve_context question k) = Raise IndexError
   <-> encode [question] = []
       \/ exists e es,
            encode [question] = e :: es
            /\ (documents (query [e] k) = Some []
                \/ metadatas (query [e] k) = Some []
                \/ distances (query [e] k) = Some []))
  /\ (forall e es metas dists,
        encode [question] = e :: es ->
        documents (query [e] k) = None ->
        head (default [[]] (metadatas (query [e] k))) = Some metas ->
        head (default [[]] (distances (query [e] k))) = Some dists ->
        outcome (retrieve_context question k) = Ok ([], best_of dists)).
Proof.
  rewrite retrieve_context_cases. split.
  - destruct (encode [question]) as [|e es]; cbn [outcome fst].
    + split; [auto | reflexivity].
    + destruct (head (default [[]] (documents (query [e] k)))) eqn:Hd;
      [destruct (head (default [[]] (metadatas (query [e] k)))) eqn:Hm;
       [destruct (head (default [[]] (distances (query [e] k)))) eqn:Hx|]|].
      * split; [discriminate|].
        intros [? | (e0 & es0 & Heq & H)]; [discriminate|].
        injection Heq as <- <-.
        destruct H as [H | [H | H]]; apply head_default_none in H; congruence.
      * split; [|reflexivity]. intros _. right. exists e, es.
        split; [reflexivity|]. right. right. apply head_default_none. exact Hx.
      * split; [|reflexivity]. intros _. right. exists e, es.
        split; [reflexivity|]. right. left. apply head_default_none. exact Hm.
      * split; [|reflexivity]. intros _. right. exists e, es.
        split; [reflexivity|]. left. apply head_default_none. exact Hd.
  - intros e es metas dists He Hd Hm Hx. rewrite He, Hd, Hm, Hx.
    cbn. destruct metas, dists; reflexivity.
Qed.

End MoreGateProperties.

(* ===================================================================== *)
(** ** Concrete runs of the further properties *)
(* ===================================================================== *)

Lemma classify_intent_question_banking_run :
  classify_intent ascii_only (py "where is the nearest branch?") [] = banking.
Proof.
  apply classify_intent_question_banking.
  - vm_compute. discriminate.
  - left. apply contains_spec. vm_compute. reflexivity.
  - intros H. apply contains_spec in H. vm_compute in H. discriminate.
  - intros H. apply contains_spec in H. vm_compute in H. discriminate.
Defined.

Lemma classify_intent_chitchat_run :
  classify_intent ascii_only (py "Hey, how are you?") [] = smalltalk.
Proof.
  apply classify_intent_chitchat.
  - vm_compute. discriminate.
  - intros kw Hin.
    assert (HF : Forall (fun kw =>
              ~ Substring kw (lower ascii_only
                    (rstrip (py ".!?")
                       (strip (lower ascii_only (py "Hey, how are you?"))))))
              (BANK_KEYWORDS ++ PROBLEM_KEYWORDS))
      by (apply (bool_decide_unpack _); vm_compute; exact I).
    rewrite Forall_forall in HF. apply HF, list_elem_of_In. exact Hin.
  - left. apply contains_spec. vm_compute. reflexivity.
Defined.

Lemma classify_intent_smalltalk_only_if_run :
  strip (lower ascii_only (py "thanks a lot")) = []
  \/ ((forall kw, In kw (BANK_KEYWORDS ++ PROBLEM_KEYWORDS) ->
         ~ Substring kw (lower ascii_only
              (rstrip (py ".!?") (strip (lower ascii_only (py "thanks a lot"))))))
      /\ (Substring (py "how are you")
            (rstrip (py ".!?") (strip (lower ascii_only (py "thanks a lot"))))
          \/ Substring (py "how's it going")
               (rstrip (py ".!?") (strip (lower ascii_only (py "thanks a lot"))))
          \/ (length (split (rstrip (py ".!?")
                 (strip (lower ascii_only (py "thanks a lot"))))) <= 6)%nat
          \/ ((length (split (rstrip (py ".!?")
                  (strip (lower ascii_only (py "thanks a lot"))))) <= 12)%nat
              /\ exists phrase,
                   In phrase (map py ["question"; "want to ask"; "can i ask";
                                      "can you answer"; "you can answer"]%string)
                   /\ Substring phrase
                        (rstrip (py ".!?")
                           (strip (lower ascii_only (py "thanks a lot"))))))).
Proof.
  apply (classify_intent_smalltalk_only_if ascii_only _ []).
  vm_compute. reflexivity.
Defined.

Lemma build_history_prefix_window_run :
  build_history_prefix ((py "q0", py "a0") :: six_turns) 6
  = build_history_prefix six_turns 6.
Proof.
  apply (build_history_prefix_window [(py "q0", py "a0")] six_turns 6).
  - lia.
  - reflexivity.
Defined.

Lemma answer_question_smalltalk_run :
  exists reply,
    In reply SMALLTALK_REPLIES
    /\ answer_question ascii_only stub_encode near_query stub_generate
                       stub_randbelow stub_format_2f (py "hi") 5 None
       = (Ok (reply, SMALLTALK_SNIPPET), [ChoiceCall SMALLTALK_REPLIES]).
Proof.
  apply answer_question_smalltalk; vm_compute; reflexivity.
Defined.

Lemma answer_question_blank_run :
  exists reply,
    In reply SMALLTALK_REPLIES
    /\ answer_question ascii_only stub_encode near_query stub_generate
                       stub_randbelow stub_format_2f (py "   ") 5
                       (Some savings_history)
       = (Ok (reply, SMALLTALK_SNIPPET), [ChoiceCall SMALLTALK_REPLIES]).
Proof.
  apply answer_question_blank.
  repeat constructor; vm_compute; reflexivity.
Defined.

Lemma answer_question_nan_distance_run :
  exists answer_text,
    answer_question ascii_only stub_encode nan_query stub_generate
                    stub_randbelow stub_format_2f (py "what are the fees") 5
                    None
    = (Ok (answer_text, kb_doc),
       [EncodeCall [py "what are the fees"]; QueryCall [[0.5%float]] 5]
       ++ [GenerateCall (generation_request stub_format_2f
                           (py "what are the fees")
                           [(kb_doc, kb_meta, PrimFloat.nan)] [])]).
Proof.
  apply (answer_question_nan_distance
           ascii_only stub_encode nan_query stub_generate stub_randbelow
           stub_format_2f (py "what are the fees") 5 None kb_doc kb_meta
           PrimFloat.nan [] PrimFloat.nan).
  - vm_compute. reflexivity.
  - vm_compute. reflexivity.
  - vm_compute. reflexivity.
  - vm_compute. reflexivity.
Defined.

Lemma retrieve_context_best_is_minimum_run :
  exists context_docs best,
    outcome (retrieve_context stub_encode two_hit_query (py "fees") 5)
    = Ok (context_docs, Some best)
    /\ In best [1.5%float; 0.5%float]
    /\ forall y, In y [1.5%float; 0.5%float] -> PrimFloat.ltb y best = false.
Proof.
  apply (retrieve_context_best_is_minimum
           stub_encode two_hit_query (py "fees") 5 [0.5%float] []
           [kb_doc; py "Steps: ask the branch."]
           [kb_meta; {| md_source := Some (py "policy.pdf");
                        md_page := Some 3%Z |}]
           1.5%float [0.5%float] eq_refl eq_refl eq_refl eq_refl).
Defined.

Lemma retrieve_context_pairs_run :
  exists context_docs best_distance,
    outcome (retrieve_context stub_encode ragged_query (py "fees") 5)
    = Ok (context_docs, best_distance)
    /\ length context_docs = 0%nat.
Proof.
  destruct (retrieve_context_pairs
              stub_encode ragged_query (py "fees") 5 [0.5%float] []
              [] [] [0.5%float] eq_refl eq_refl eq_refl eq_refl)
    as (context_docs & best_distance & Hout & Hlen & _).
  exists context_docs, best_distance. split; [exact Hout | exact Hlen].
Defined.

(* ===================================================================== *)
(** ** Properties of index building *)
(* ===================================================================== *)

Lemma cons_app4 {A} (x : A) (a b c d : list A) :
  x :: a ++ b ++ c ++ d = (x :: a ++ b ++ c) ++ d.
Proof. cbn [app]. rewrite <- !app_assoc. reflexivity. Qed.

Lemma py_inj (a b : string) : py a = py b -> a = b.
Proof.
  revert b. induction a as [|x a IH]; intros [|y b] H; try discriminate;
    [reflexivity|].
  simpl in H. injection H as Hx Hr. f_equal; [|apply IH; exact Hr].
  rewrite <- (ascii_N_embedding x), <- (ascii_N_embedding y), Hx. reflexivity.
Qed.

Lemma str_of_nat_inj (n m : nat) : str_of_nat n = str_of_nat m -> n = m.
Proof.
  unfold str_of_nat. intros H. apply py_inj in H.
  apply DecimalNat.Unsigned.to_uint_inj.
  assert (Hs : Some (Nat.to_uint n) = Some (Nat.to_uint m))
    by (rewrite <- !NilEmpty.usu, H; reflexivity).
  congruence.
Qed.

Lemma doc_ids_NoDup (n : nat) :
  NoDup (map (fun i => py "doc-" ++ str_of_nat i) (seq 0 n)).
Proof.
  assert (Hinj : Inj (=) (=) (fun i => py "doc-" ++ str_of_nat i)).
  { intros i j H. apply app_inv_head in H. apply str_of_nat_inj. exact H. }
  apply (NoDup_fmap_2 (fun i => py "doc-" ++ str_of_nat i)), NoDup_seq.
Qed.

Section IndexerProperties.

Variable Meta : Type.
Variable empty_meta : Meta.
Variable collection_count : nat.
Variable collection_get : option (list str).
Variable load_excel_as_docs : str -> list (Doc Meta).
Variable isdir : str -> bool.
Variable load_all_pdfs : str -> option (list (Doc Meta)).
Variable embed_texts : list str -> list Embedding.

Local Abbreviation build_or_load_index :=
  (build_or_load_index Meta empty_meta collection_count collection_get
                       load_excel_as_docs isdir load_all_pdfs embed_texts).
Local Abbreviation load_pdf_docs := (load_pdf_docs Meta isdir load_all_pdfs).

(** X15. an existing index is reused.  When the collection already holds
    documents and no rebuild is asked for, the only call is the count:
    nothing is loaded, deleted, embedded or added. *)
Theorem build_or_load_index_reuse (excel_path pdf_dir : str) :
  (0 < collection_count)%nat ->
  build_or_load_index excel_path pdf_dir false = [CountCall].
Proof.
  intros H. unfold build_or_load_index.
  apply Nat.ltb_lt in H. cbv zeta. rewrite H. reflexivity.
Qed.

(** X16. what is deleted.  A delete is issued exactly when the collection is
    non-empty, a rebuild is asked for and the store lists at least one id;
    it then deletes exactly the listed ids. *)
Theorem build_or_load_index_delete (excel_path pdf_dir : str)
    (rebuild : bool) (ids : list str) :
  In (DeleteCall ids) (build_or_load_index excel_path pdf_dir rebuild)
  <-> (0 < collection_count)%nat /\ rebuild = true
      /\ collection_get = Some ids /\ ids <> [].
Proof.
  unfold build_or_load_index. cbv zeta.
  destruct (Nat.ltb_spec 0 collection_count) as [Hc|Hc]; destruct rebuild;
    cbn [andb negb].
  - split.
    + intros [H | H]; [discriminate|].
      apply in_app_or in H as [H | H].
      * destruct H as [H | H]; [discriminate|].
        destruct collection_get as [[|i l]|]; cbn in H; try contradiction.
        destruct H as [H | []]. injection H as <-. repeat split; auto.
      * exfalso. apply in_app_or in H as [[H | []] | H]; [discriminate|].
        apply in_app_or in H as [H | H].
        -- unfold load_pdf_docs in H. destruct (isdir pdf_dir); cbn in H;
             intuition discriminate.
        -- destruct (_ ++ _); cbn in H; intuition discriminate.
    + intros (_ & _ & -> & Hne). right. apply in_or_app. left. right.
      destruct ids; [congruence | left; reflexivity].
  - split; [intros [H | []]; discriminate | intros (_ & H & _); discriminate].
  - split; [|intros (H & _); lia].
    intros [H | H]; [discriminate|]. exfalso. cbn [app] in H.
    destruct H as [H | H]; [discriminate|].
    apply in_app_or in H as [H | H].
    + unfold load_pdf_docs in H. destruct (isdir pdf_dir); cbn in H;
        intuition discriminate.
    + destruct (_ ++ _); cbn in H; intuition discriminate.
  - split; [|intros (H & _); lia].
    intros [H | H]; [discriminate|]. exfalso. cbn [app] in H.
    destruct H as [H | H]; [discriminate|].
    apply in_app_or in H as [H | H].
    + unfold load_pdf_docs in H. destruct (isdir pdf_dir); cbn in H;
        intuition discriminate.
    + destruct (_ ++ _); cbn in H; intuition discriminate.
Qed.

(** X17. what is added.  When the index is built (empty collection, or
    rebuild) and at least one document is loaded, the run ends with one
    embedding call and one add: the texts are those of the Excel documents
    followed by those of the PDF documents (none when the PDF folder is
    missing or its loading fails), there is one metadata and one id per
    text, the [i]-th id is "doc-i", and the ids are pairwise distinct. *)
Theorem build_or_load_index_add (excel_path pdf_dir : str) (rebuild : bool) :
  collection_count = 0%nat \/ rebuild = true ->
  load_excel_as_docs excel_path ++ fst (load_pdf_docs pdf_dir) <> [] ->
  let docs := load_excel_as_docs excel_path ++ fst (load_pdf_docs pdf_dir) in
  let texts := map doc_text docs in
  exists before ids metadatas,
    build_or_load_index excel_path pdf_dir rebuild
    = before ++ [EmbedTextsCall texts;
                 AddCall ids texts metadatas (embed_texts texts)]
    /\ Forall (fun ev => match ev with
                         | AddCall _ _ _ _ | EmbedTextsCall _ => False
                         | _ => True
                         end) before
    /\ length ids = length texts
    /\ length metadatas = length texts
    /\ NoDup ids
    /\ (forall i : nat, (i < length texts)%nat ->
          ids !! i = Some (py "doc-" ++ str_of_nat i))
    /\ fst (load_pdf_docs pdf_dir)
       = (if isdir pdf_dir then default [] (load_all_pdfs pdf_dir) else []).
Proof.
  intros Hbuild Hne.
  assert (Hgate : (0 <? collection_count)%nat && negb rebuild = false).
  { destruct Hbuild as [-> | ->]; [reflexivity | apply andb_false_r]. }
  unfold build_or_load_index. cbv zeta. rewrite Hgate.
  remember (load_excel_as_docs excel_path ++ fst (load_pdf_docs pdf_dir))
    as docs eqn:Ed.
  destruct docs as [|d0 docs']; [congruence|].
  eexists (CountCall :: _ ++ [LoadExcelCall excel_path] ++ snd (load_pdf_docs pdf_dir)),
          _, _.
  split; [apply cons_app4|].
  split.
  { constructor; [exact I|]. apply Forall_app. split.
    - destruct (0 <? collection_count)%nat; [|constructor].
      constructor; [exact I|].
      destruct collection_get as [[|i l]|]; repeat constructor.
    - constructor; [exact I|]. unfold load_pdf_docs.
      destruct (isdir pdf_dir); cbn; repeat constructor. }
  split; [rewrite length_map, length_seq; reflexivity|].
  split; [rewrite !length_map; reflexivity|].
  split; [apply doc_ids_NoDup|]. split.
  - intros i Hi. rewrite list_lookup_fmap, lookup_seq_lt by exact Hi.
    reflexivity.
  - unfold load_pdf_docs. destruct (isdir pdf_dir); [|reflexivity].
    destruct (load_all_pdfs pdf_dir); reflexivity.
Qed.

(** X18. a rebuild without documents.  When the index is built and no
    document is loaded, nothing is embedded or added; if the collection was
    non-empty and listed ids, those ids have been deleted all the same, so
    the collection is left empty. *)
Theorem build_or_load_index_no_documents (excel_path pdf_dir : str)
    (rebuild : bool) :
  collection_count = 0%nat \/ rebuild = true ->
  load_excel_as_docs excel_path ++ fst (load_pdf_docs pdf_dir) = [] ->
  Forall (fun ev => match ev with
                    | AddCall _ _ _ _ | EmbedTextsCall _ => False
                    | _ => True
                    end)
         (build_or_load_index excel_path pdf_dir rebuild)
  /\ (forall i ids, (0 < collection_count)%nat ->
        collection_get = Some (i :: ids) ->
        In (DeleteCall (i :: ids))
           (build_or_load_index excel_path pdf_dir rebuild)).
Proof.
  intros Hbuild Hnil.
  assert (Hgate : (0 <? collection_count)%nat && negb rebuild = false).
  { destruct Hbuild as [-> | ->]; [reflexivity | apply andb_false_r]. }
  unfold build_or_load_index. cbv zeta. rewrite Hgate, Hnil, !app_nil_r.
  split.
  - constructor; [exact I|]. apply Forall_app. split.
    + destruct (0 <? collection_count)%nat; [|constructor].
      constructor; [exact I|].
      destruct collection_get as [[|i l]|]; repeat constructor.
    + constructor; [exact I|]. unfold load_pdf_docs.
      destruct (isdir pdf_dir); cbn; repeat constructor.
  - intros i ids Hc Hg. apply Nat.ltb_lt in Hc. rewrite Hc, Hg.
    right. right. left. reflexivity.
Qed.

End IndexerProperties.

(* ===================================================================== *)
(** ** Properties of document loading *)
(* ===================================================================== *)

Lemma has_chinese_app (a b : str) :
  _has_chinese (a ++ b) = _has_chinese a || _has_chinese b.
Proof. unfold _has_chinese. apply existsb_app. Qed.

Lemma has_chinese_join (parts : list str) :
  Forall (fun l => _has_chinese l = false) parts ->
  _has_chinese (join nl parts) = false.
Proof.
  induction 1 as [|p rest Hp Hrest IH]; [reflexivity|].
  destruct rest as [|r rest']; [exact Hp|].
  cbn [join] in *. rewrite !has_chinese_app, Hp, IH. reflexivity.
Qed.

Lemma has_chinese_Forall (s : str) :
  _has_chinese s = false
  <-> Forall (fun c => (19968 <=? c) && (c <=? 40959) = false) s.
Proof.
  unfold _has_chinese. induction s as [|c s IH]; simpl.
  - split; [constructor | reflexivity].
  - rewrite orb_false_iff, IH. split.
    + intros [H1 H2]. constructor; assumption.
    + intros H. inversion H; subst. split; assumption.
Qed.

Lemma join_nil_inv (sep : str) (parts : list str) :
  Forall (fun p => p <> []) parts -> join sep parts = [] -> parts = [].
Proof.
  intros H. destruct H as [|p rest Hp Hrest]; [reflexivity|].
  destruct rest; cbn [join]; intros E; [congruence|].
  apply app_eq_nil in E as [E _]. congruence.
Qed.

Lemma page_order_ids (file_name : str) (docs : list PdfDoc) :
  Forall (fun d => pd_id d = file_name ++ py "_page_" ++ str_of_nat (pd_page d))
         docs ->
  NoDup (map pd_page docs) -> NoDup (map pd_id docs).
Proof.
  induction docs as [|d docs IH]; intros Hid Hnd; [constructor|].
  inversion Hid as [|? ? Hd Hrest]; subst.
  cbn [map] in *. apply NoDup_cons in Hnd as [Hnotin Hnd].
  apply NoDup_cons. split; [|apply IH; assumption].
  intros Hin. apply Hnotin.
  apply list_elem_of_In, in_map_iff in Hin as [d' [Heq Hd']].
  apply list_elem_of_In, in_map_iff. exists d'. split; [|exact Hd'].
  rewrite Forall_forall in Hrest.
  rewrite Hd, (Hrest d' (proj2 (list_elem_of_In _ _) Hd')) in Heq.
  apply app_inv_head, app_inv_head, str_of_nat_inj in Heq. exact Heq.
Qed.

Section LoaderProperties.

Variable lower_unicode : str -> str.
Local Abbreviation lower := (lower lower_unicode).
Local Abbreviation _is_english_line := (_is_english_line lower_unicode).
Local Abbreviation extract_english_block :=
  (extract_english_block lower_unicode).
Local Abbreviation _load_single_pdf := (_load_single_pdf lower_unicode).
Local Abbreviation row_part := (row_part lower_unicode).
Local Abbreviation _row_to_text := (_row_to_text lower_unicode).

Lemma english_lines_no_chinese (started : bool) (lines : list str) :
  Forall (fun l => _has_chinese l = false)
         (english_lines lower_unicode started lines).
Proof.
  revert started. induction lines as [|line rest IH]; intros started;
    [constructor|].
  cbn [english_lines].
  destruct line as [|c l]; [apply IH|].
  destruct (_has_chinese (c :: l)) eqn:E.
  - destruct started; [constructor | apply IH].
  - destruct (if _is_english_line (c :: l) then true else started);
      [constructor; [exact E | apply IH] | apply IH].
Qed.


Lemma english_lines_nonempty (started : bool) (lines : list str) :
  Forall (fun l => l <> []) (english_lines lower_unicode started lines).
Proof.
  revert started. induction lines as [|line rest IH]; intros started;
    [constructor|].
  cbn [english_lines].
  destruct line as [|c l]; [apply IH|].
  destruct (_has_chinese (c :: l)).
  - destruct started; [constructor | apply IH].
  - destruct (if _is_english_line (c :: l) then true else started);
      [constructor; [discriminate | apply IH] | apply IH].
Qed.

Lemma english_lines_none (lines : list str) :
  Forall (fun l => _is_english_line l = false) lines ->
  english_lines lower_unicode false lines = [].
Proof.
  induction 1 as [|line rest Hl _ IH]; [reflexivity|].
  cbn [english_lines]. destruct line as [|c l]; [exact IH|].
  rewrite Hl. destruct (_has_chinese (c :: l)); exact IH.
Qed.

(** X19. no Chinese text is kept.  The text extracted from a PDF page never
    contains a character of the block U+4E00..U+9FFF. *)
Theorem extract_english_block_no_chinese (page_text : str) :
  _has_chinese (extract_english_block page_text) = false.
Proof.
  unfold extract_english_block. cbv zeta.
  apply has_chinese_Forall, strip_Forall, has_chinese_Forall.
  apply has_chinese_join, english_lines_no_chinese.
Qed.

(** X20. a page without a Latin letter yields nothing.  When no line of the
    page, once trimmed, contains a letter a-z or A-Z, the extracted text is
    empty (and the page is then skipped by the loader). *)
Theorem extract_english_block_needs_english (page_text : str) :
  Forall (fun line => _is_english_line line = false)
         (map strip (splitlines page_text)) ->
  extract_english_block page_text = [].
Proof.
  intros H. unfold extract_english_block. cbv zeta.
  rewrite (english_lines_none _ H). reflexivity.
Qed.

Lemma load_pages_spec (file_name category subcategory : str) (i : nat)
    (pages : list PageRead) :
  Forall (fun d =>
            pd_text d <> [] /\ _has_chinese (pd_text d) = false
            /\ (i < pd_page d <= i + length pages)%nat
            /\ pd_id d = file_name ++ py "_page_" ++ str_of_nat (pd_page d)
            /\ pd_source d = file_name /\ pd_category d = category
            /\ pd_subcategory d = subcategory)
         (load_pages lower_unicode file_name category subcategory i pages)
  /\ StronglySorted lt
       (map pd_page
            (load_pages lower_unicode file_name category subcategory i pages)).
Proof.
  revert i. induction pages as [|page rest IH]; intros i;
    [split; constructor|].
  cbn [load_pages]. destruct page as [text|]; [|split; constructor].
  destruct (IH (S i)) as [IH1 IH2].
  assert (Hweak : Forall (fun d =>
            pd_text d <> [] /\ _has_chinese (pd_text d) = false
            /\ (i < pd_page d <= i + length (Extracted text :: rest))%nat
            /\ pd_id d = file_name ++ py "_page_" ++ str_of_nat (pd_page d)
            /\ pd_source d = file_name /\ pd_category d = category
            /\ pd_subcategory d = subcategory)
         (load_pages lower_unicode file_name category subcategory (S i) rest)).
  { eapply Forall_impl; [exact IH1|]. cbn [length]. intros d H.
    repeat split; try tauto; lia. }
  destruct (extract_english_block (default [] text)) as [|c t] eqn:E;
    [split; assumption|].
  split.
  - constructor; [|exact Hweak]. cbn [pd_text pd_page pd_id pd_source
      pd_category pd_subcategory length].
    repeat split; try reflexivity; try lia; try discriminate.
    rewrite <- E. apply extract_english_block_no_chinese.
  - cbn [map pd_page]. constructor; [exact IH2|].
    apply Forall_fmap. eapply Forall_impl; [exact IH1|].
    cbn. intros d H. lia.
Qed.

(** X21. the documents of one PDF.  Every document loaded from a PDF has a
    non-empty text without Chinese characters, the file name as source, the
    1-based number of its page as page, and the id "<file>_page_<page>";
    pages come in increasing order, so the ids are pairwise distinct; a page
    without English text is skipped without shifting the numbers, and a
    read failure keeps the documents made before it. *)
Theorem load_single_pdf_docs (file_name base_name category : str)
    (pages : list PageRead) :
  Forall (fun d =>
            pd_text d <> [] /\ _has_chinese (pd_text d) = false
            /\ (1 <= pd_page d <= length pages)%nat
            /\ pd_id d = file_name ++ py "_page_" ++ str_of_nat (pd_page d)
            /\ pd_source d = file_name /\ pd_category d = category
            /\ pd_subcategory d = pdf_subcategory base_name)
         (_load_single_pdf file_name base_name category pages)
  /\ StronglySorted lt
       (map pd_page (_load_single_pdf file_name base_name category pages))
  /\ NoDup (map pd_id (_load_single_pdf file_name base_name category pages))
  /\ (forall before after,
        pages = before ++ ReadFailed :: after ->
        _load_single_pdf file_name base_name category pages
        = _load_single_pdf file_name base_name category before).
Proof.
  unfold _load_single_pdf.
  destruct (load_pages_spec file_name category (pdf_subcategory base_name) 0
                            pages) as [H1 H2].
  split; [|split; [exact H2|split]].
  - eapply Forall_impl; [exact H1|]. cbn. intros d H.
    repeat split; try tauto; lia.
  - apply (page_order_ids file_name).
    + eapply Forall_impl; [exact H1|]. cbn. tauto.
    + clear H1. induction H2 as [|p ps Hs IH Hlt]; [constructor|].
      apply NoDup_cons. split; [|exact IH].
      intros Hin. rewrite Forall_forall in Hlt. apply Hlt in Hin. lia.
  - intros before after ->. clear H1 H2. generalize 0%nat.
    induction before as [|page before IH]; intros i; [reflexivity|].
    cbn [app load_pages]. destruct page as [text|]; [|reflexivity].
    destruct (extract_english_block (default [] text));
      [apply IH | f_equal; apply IH].
Qed.


Lemma row_part_nonempty (col text : str) : text <> [] -> row_part col text <> [].
Proof.
  intros H. unfold row_part. cbv zeta.
  repeat match goal with
         | |- context [if ?b then _ else _] => destruct b
         end;
    try (cbn; discriminate).
  intros E. apply app_eq_nil in E as [_ E]. cbn in E. discriminate.
Qed.

(** The parts that one cell contributes. *)
Lemma row_parts_nonempty (row : list (str * option str)) :
  Forall (fun p => p <> [])
    (flat_map (fun '(col, val) =>
                 match val with
                 | None => []
                 | Some v =>
                     match strip v with
                     | [] => []
                     | c :: r => [row_part col (c :: r)]
                     end
                 end) row).
Proof.
  induction row as [|[col val] row IH]; [constructor|].
  cbn [flat_map]. apply Forall_app. split; [|exact IH].
  destruct val as [v|]; [|constructor].
  destruct (strip v) eqn:E; [constructor|].
  constructor; [apply row_part_nonempty; discriminate | constructor].
Qed.

(** X22. blank rows give no text.  [_row_to_text] returns the empty string
    exactly when every cell of the row is missing or blank, which is when
    the loader skips the row. *)
Theorem row_to_text_empty_iff (row : list (str * option str)) :
  _row_to_text row = []
  <-> Forall (fun cell => match snd cell with
                          | None => True
                          | Some v => strip v = []
                          end) row.
Proof.
  unfold _row_to_text. split.
  - intros H. apply join_nil_inv in H; [|apply row_parts_nonempty].
    induction row as [|[col val] row IH]; [constructor|].
    cbn [flat_map] in H. apply app_eq_nil in H as [Hc Hr].
    constructor; [|apply IH; exact Hr].
    cbn [snd]. destruct val as [v|]; [|exact I].
    destruct (strip v); [reflexivity | discriminate].
  - intros H.
    assert (Hparts : flat_map (fun '(col, val) =>
                 match val with
                 | None => []
                 | Some v =>
                     match strip v with
                     | [] => []
                     | c :: r => [row_part col (c :: r)]
                     end
                 end) row = []).
    { induction H as [|[col val] row Hc _ IH]; [reflexivity|].
      cbn [flat_map snd] in *. rewrite IH, app_nil_r.
      destruct val as [v|]; [rewrite Hc|]; reflexivity. }
    rewrite Hparts. reflexivity.
Qed.

(** X23. no cell is lost.  The trimmed text of every non-blank cell occurs
    in the row text, after the label of its column; a column whose
    lower-cased name contains "question" is labelled "Customer question: "
    whatever else the name contains. *)
Theorem row_to_text_keeps_cells (row : list (str * option str))
    (col v : str) :
  In (col, Some v) row -> strip v <> [] ->
  Substring (row_part col (strip v)) (_row_to_text row)
  /\ Substring (strip v) (_row_to_text row)
  /\ (Substring (py "question") (lower (strip col)) ->
      Substring (py "Customer question: " ++ strip v) (_row_to_text row)).
Proof.
  intros Hin Hne.
  assert (Hpart : Substring (row_part col (strip v)) (_row_to_text row)).
  { unfold _row_to_text. apply Substring_join. apply in_flat_map.
    exists (col, Some v). split; [exact Hin|].
    destruct (strip v); [congruence | left; reflexivity]. }
  split; [exact Hpart|]. split.
  - eapply Substring_trans; [|exact Hpart]. unfold row_part. cbv zeta.
    repeat match goal with
           | |- context [if ?b then _ else _] => destruct b
           end; substring_nav.
  - intros Hq. apply contains_spec in Hq.
    unfold row_part in Hpart. cbv zeta in Hpart. rewrite Hq in Hpart.
    exact Hpart.
Qed.

End LoaderProperties.

(* ===================================================================== *)
(** ** Facts about [find] *)
(* ===================================================================== *)

Lemma find_unfold (sub s : str) :
  find sub s
  = if startswith sub s then Some 0%nat
    else match s with
         | [] => None
         | _ :: r => option_map S (find sub r)
         end.
Proof. destruct s; reflexivity. Qed.

Lemma find_none_iff (sub s : str) :
  find sub s = None <-> contains sub s = false.
Proof.
  induction s as [|c r IH]; rewrite find_unfold; cbn [contains].
  - destruct (startswith sub []); cbn; split; congruence.
  - destruct (startswith sub (c :: r)); cbn; [split; discriminate|].
    rewrite <- IH. destruct (find sub r); cbn; split; congruence.
Qed.

Lemma shorter_prefix {A} (a a' b b' : list A) :
  a ++ a' = b ++ b' -> (length a <= length b)%nat -> exists t, b = a ++ t.
Proof.
  revert b. induction a as [|x a IH]; intros b H Hl; [exists b; reflexivity|].
  destruct b as [|y b]; [simpl in Hl; lia|].
  simpl in H. injection H as -> H. simpl in Hl.
  destruct (IH b H) as [t ->]; [lia|]. exists t. reflexivity.
Qed.

(** The first occurrence of [sub] in [P ++ sub ++ R] is at [length P] when
    [sub] does not occur earlier. *)
Lemma find_first (sub P R : str) :
  sub <> [] ->
  ~ Substring sub (P ++ removelast sub) ->
  find sub (P ++ sub ++ R) = Some (length P).
Proof.
  intros Hne. induction P as [|x P IH]; intros H; rewrite find_unfold.
  - cbn [app length].
    replace (startswith sub (sub ++ R)) with true; [reflexivity|].
    symmetry. apply startswith_spec. exists R. reflexivity.
  - destruct (startswith sub ((x :: P) ++ sub ++ R)) eqn:E.
    + exfalso. apply H. apply startswith_spec in E as [post E].
      rewrite (app_removelast_last 0 Hne) in E at 1.
      rewrite <- app_assoc, app_assoc in E. symmetry in E.
      apply shorter_prefix in E as [t Ht].
      * rewrite Ht. exists [], t. reflexivity.
      * rewrite length_app. cbn [length].
        assert (Hl : length sub = S (length (removelast sub))).
        { rewrite (app_removelast_last 0 Hne) at 1.
          rewrite length_app. cbn. lia. }
        lia.
    + cbn [app length]. rewrite IH; [reflexivity|].
      intros Hs. apply H. apply (Substring_skip _ [x]) in Hs. exact Hs.
Qed.

(** X24. the subcategory of a PDF.  For a file stem made of a number without
    a space, ". " and a title, the subcategory is the trimmed title, and
    the trimmed rest of the title when the title begins with "Terms and
    Conditions for ". *)
Theorem pdf_subcategory_numbered (num title : str) :
  Forall (fun c => c <> 32) num ->
  strip title <> [] ->
  pdf_subcategory (num ++ py ". " ++ py "Terms and Conditions for " ++ title)
  = strip title
  /\ (startswith (py "Terms and Conditions for ") title = false ->
      pdf_subcategory (num ++ py ". " ++ title) = strip title).
Proof.
  intros Hnum Hne.
  assert (Hfind : forall R, find (py ". ") (num ++ py ". " ++ R)
                            = Some (length num)).
  { intros R. apply find_first; [discriminate|].
    change (removelast (py ". ")) with [46]. intros [pre [post E]].
    assert (Hin : In 32 (num ++ [46])).
    { rewrite E. apply in_or_app. right. right. left. reflexivity. }
    apply in_app_or in Hin as [Hin | [Hin | []]]; [|discriminate].
    rewrite Forall_forall in Hnum.
    apply (Hnum 32 (proj2 (list_elem_of_In _ _) Hin)). reflexivity. }
  assert (Hskip : forall R, skipn (length num + 2) (num ++ py ". " ++ R) = R).
  { intros R. rewrite (app_assoc num (py ". ") R).
    apply drop_app_length'. rewrite length_app. reflexivity. }
  unfold pdf_subcategory. cbv zeta. split.
  - rewrite Hfind, Hskip.
    replace (startswith (py "Terms and Conditions for ")
               (py "Terms and Conditions for " ++ title)) with true
      by (symmetry; apply startswith_spec; exists title; reflexivity).
    rewrite drop_app_length. destruct (strip title); [congruence|reflexivity].
  - intros Hp. rewrite Hfind, Hskip, Hp.
    destruct (strip title); [congruence|reflexivity].
Qed.

Lemma label_lengths :
  length (py "customer answer:") = length (py "Customer answer:")
  /\ length (py "internal notes:") = length (py "Internal notes:")
  /\ length (py "steps:") = length (py "Steps:").
Proof. repeat split. Qed.

Section SectionSplitting.

Variable lower_unicode : str -> str.
Local Abbreviation lower := (lower lower_unicode).
Local Abbreviation split_answer_sections :=
  (split_answer_sections lower_unicode).

Lemma lower_ascii (s : str) : isascii s = true -> lower s = map ascii_lower s.
Proof. intros H. unfold lower. rewrite H. reflexivity. Qed.

Lemma isascii_app (a b : str) :
  isascii (a ++ b) = isascii a && isascii b.
Proof. unfold isascii. apply forallb_app. Qed.

(** X25. an answer without labels is shown as it is.  When the lower-cased
    answer does not contain "customer answer:", the whole answer is the
    first section and there is no notes or steps section; so it is for the
    Khmer reply, the "could not generate" reply and the smalltalk replies. *)
Theorem split_answer_sections_unlabelled :
  (forall answer_text : str,
      ~ Substring (py "customer answer:") (lower answer_text) ->
      split_answer_sections answer_text = (Some answer_text, None, None))
  /\ Forall (fun reply =>
               split_answer_sections reply = (Some reply, None, None))
            (KHMER_REPLY :: NO_ANSWER :: SMALLTALK_REPLIES).
Proof.
  split.
  - intros answer_text H. unfold split_answer_sections. cbv zeta.
    replace (find (py "customer answer:") (lower answer_text)) with (@None nat);
      [reflexivity|].
    symmetry. apply find_none_iff.
    destruct (contains _ _) eqn:E; [|reflexivity].
    apply contains_spec in E. contradiction.
  - repeat constructor; vm_compute; reflexivity.
Qed.


(** X26. the three sections come back.  For an answer written as
    "Customer answer:" a "Internal notes:" b "Steps:" c, with ASCII texts
    a, b and c in which the labels "internal notes:" and "steps:" do not
    occur before their place (in any letter case), the UI gets back the
    three texts, trimmed. *)
Theorem split_answer_sections_three_parts (a b c : str) :
  isascii a = true -> isascii b = true -> isascii c = true ->
  ~ Substring (py "internal notes:")
      (lower (py "Customer answer:" ++ a ++ py "Internal notes")) ->
  ~ Substring (py "steps:")
      (lower (py "Customer answer:" ++ a ++ py "Internal notes:" ++ b
              ++ py "Steps")) ->
  split_answer_sections
    (py "Customer answer:" ++ a ++ py "Internal notes:" ++ b
     ++ py "Steps:" ++ c)
  = (Some (strip a), Some (strip b), Some (strip c)).
Proof.
  intros Ha Hb Hc Hn Hs.
  rewrite lower_ascii in Hn
    by (rewrite !isascii_app, Ha; reflexivity).
  rewrite lower_ascii in Hs
    by (rewrite !isascii_app, Ha, Hb; reflexivity).
  rewrite !map_app in Hn. rewrite !map_app in Hs.
  change (map ascii_lower (py "Customer answer:"))
    with (py "customer answer:") in *.
  change (map ascii_lower (py "Internal notes:"))
    with (py "internal notes:") in *.
  change (map ascii_lower (py "Internal notes"))
    with (removelast (py "internal notes:")) in *.
  change (map ascii_lower (py "Steps"))
    with (removelast (py "steps:")) in *.
  set (la := map ascii_lower a) in *. set (lb := map ascii_lower b) in *.
  assert (Hlow : lower (py "Customer answer:" ++ a ++ py "Internal notes:" ++ b
                        ++ py "Steps:" ++ c)
                 = py "customer answer:" ++ la ++ py "internal notes:" ++ lb
                   ++ py "steps:" ++ map ascii_lower c).
  { rewrite lower_ascii by (rewrite !isascii_app, Ha, Hb, Hc; reflexivity).
    rewrite !map_app. reflexivity. }
  assert (Hca : find (py "customer answer:")
                  (py "customer answer:" ++ la ++ py "internal notes:" ++ lb
                   ++ py "steps:" ++ map ascii_lower c) = Some 0%nat).
  { apply (find_first _ []); [discriminate|].
    intros H. apply contains_spec in H. vm_compute in H. discriminate. }
  assert (Hin : find (py "internal notes:")
                  (py "customer answer:" ++ la ++ py "internal notes:" ++ lb
                   ++ py "steps:" ++ map ascii_lower c)
                = Some (length (py "Customer answer:" ++ a))).
  { rewrite (app_assoc (py "customer answer:") la).
    rewrite find_first; [|discriminate|rewrite <- app_assoc; exact Hn].
    unfold la. rewrite !length_app, length_map. reflexivity. }
  assert (Hst : find (py "steps:")
                  (py "customer answer:" ++ la ++ py "internal notes:" ++ lb
                   ++ py "steps:" ++ map ascii_lower c)
                = Some (length ((py "Customer answer:" ++ a)
                                ++ py "Internal notes:" ++ b))).
  { replace (py "customer answer:" ++ la ++ py "internal notes:" ++ lb
             ++ py "steps:" ++ map ascii_lower c)
      with ((py "customer answer:" ++ la ++ py "internal notes:" ++ lb)
            ++ py "steps:" ++ map ascii_lower c)
      by (rewrite <- !app_assoc; reflexivity).
    rewrite find_first;
      [|discriminate|rewrite <- !app_assoc; exact Hs].
    unfold la, lb. rewrite !length_app, !length_map. reflexivity. }
  unfold split_answer_sections. cbv zeta. rewrite Hlow, Hca, Hin, Hst.
  assert (E1 : take (length (py "Customer answer:" ++ a))
                 (py "Customer answer:" ++ a ++ py "Internal notes:" ++ b
                  ++ py "Steps:" ++ c)
               = py "Customer answer:" ++ a).
  { rewrite (app_assoc (py "Customer answer:") a). apply take_app_length. }
  assert (E2 : take (length ((py "Customer answer:" ++ a)
                             ++ py "Internal notes:" ++ b))
                 (py "Customer answer:" ++ a ++ py "Internal notes:" ++ b
                  ++ py "Steps:" ++ c)
               = (py "Customer answer:" ++ a) ++ py "Internal notes:" ++ b).
  { rewrite (app_assoc (py "Customer answer:") a).
    rewrite (app_assoc (py "Internal notes:") b).
    rewrite (app_assoc (py "Customer answer:" ++ a)
                       (py "Internal notes:" ++ b) (py "Steps:" ++ c)).
    apply take_app_length. }
  assert (E3 : drop (length ((py "Customer answer:" ++ a)
                             ++ py "Internal notes:" ++ b))
                 (py "Customer answer:" ++ a ++ py "Internal notes:" ++ b
                  ++ py "Steps:" ++ c)
               = py "Steps:" ++ c).
  { rewrite (app_assoc (py "Customer answer:") a).
    rewrite (app_assoc (py "Internal notes:") b).
    rewrite (app_assoc (py "Customer answer:" ++ a)
                       (py "Internal notes:" ++ b) (py "Steps:" ++ c)).
    apply drop_app_length. }
  unfold slice_part, slice. cbv zeta. rewrite E1, E2, E3, drop_app_length.
  reflexivity.
Qed.

End SectionSplitting.

(* ===================================================================== *)
(** ** Properties of the UI turn and of the model cache *)
(* ===================================================================== *)

Lemma history_pairs_roles (messages : list Message) :
  Forall (fun t : Turn => fst t = py "user" \/ fst t = py "assistant")
         (history_pairs messages).
Proof.
  unfold history_pairs. induction messages as [|m ms IH]; [constructor|].
  cbn [flat_map]. apply Forall_app. split; [|exact IH].
  repeat case_bool_decide;
    [apply Forall_singleton; left; reflexivity
    |apply Forall_singleton; right; reflexivity
    |constructor].
Qed.

Lemma history_pairs_user_last (earlier : list Message) (q : str) :
  history_pairs (earlier ++ [{| role := py "user"; content := q |}])
  = history_pairs earlier ++ [(py "user", q)].
Proof. unfold history_pairs. rewrite flat_map_app. reflexivity. Qed.

Section UiProperties.

Variable lower_unicode : str -> str.
Variable encode : list str -> list Embedding.
Variable query : list Embedding -> Z -> QueryResult.
Variable generate_content : GenerateRequest -> option str.
Variable randbelow : nat -> nat.
Variable format_2f : float -> str.

Local Abbreviation lower := (lower lower_unicode).
Local Abbreviation classify_intent := (classify_intent lower_unicode).
Local Abbreviation ui_answer :=
  (ui_answer lower_unicode encode query generate_content randbelow format_2f).

(** X27. what the UI passes as history.  The history built by the UI pairs a
    role label with a content, so the "previous user question" read by the
    answer flow is the word "user" whenever the last message is the user's.
    For such a message that reaches retrieval and has at most six words
    once normalised, the retriever is therefore called on "user", a line
    break, "Follow-up: " and the query. *)
Theorem ui_answer_followup_query (earlier : list Message) (q : str) :
  Forall (fun t : Turn => fst t = py "user" \/ fst t = py "assistant")
         (history_pairs (earlier ++ [{| role := py "user"; content := q |}]))
  /\ last_user_question
       (history_pairs (earlier ++ [{| role := py "user"; content := q |}]))
     = py "user"
  /\ (contains_khmer q = false ->
      classify_intent
        (strip (lower q))
        (history_pairs (earlier ++ [{| role := py "user"; content := q |}]))
      = banking ->
      (length (split (rstrip (py "?!.")
                        (strip (lower (strip (lower q)))))) <= 6)%nat ->
      head (trace (ui_answer
                     (earlier ++ [{| role := py "user"; content := q |}])))
      = Some (EncodeCall [py "user" ++ nl ++ py "Follow-up: " ++ q])).
Proof.
  split; [apply history_pairs_roles|].
  rewrite history_pairs_user_last. split; [apply last_user_question_snoc|].
  intros Hk Hc Hw. unfold ui_answer. cbv zeta.
  rewrite last_snoc. cbn [content]. rewrite history_pairs_user_last.
  destruct (answer_question_banking_trace
              lower_unicode encode query generate_content randbelow format_2f
              q 5 (Some (history_pairs earlier ++ [(py "user", q)])) Hk Hc)
    as [rest [Ht _]].
  rewrite Ht. unfold default. cbn [from_option id].
  destruct (retrieve_context_trace encode query
              (retrieval_question lower_unicode q (strip (lower q))
                 (history_pairs earlier ++ [(py "user", q)])) 5)
    as [tail [Hq _]].
  rewrite Hq. cbn [app head]. do 3 f_equal.
  rewrite retrieval_question_eq.
  assert (Hf : is_followup lower_unicode (strip (lower q))
                 (history_pairs earlier ++ [(py "user", q)]) = true).
  { unfold is_followup. cbv zeta.
    destruct (history_pairs earlier ++ [(py "user", q)]) eqn:E.
    - apply app_eq_nil in E as [_ E]. discriminate.
    - apply Nat.leb_le in Hw. rewrite Hw. reflexivity. }
  rewrite Hf, last_user_question_snoc. reflexivity.
Qed.

End UiProperties.

Section ModelCacheProperties.

Variable Model : Type.
Variable load_model : str -> Model.

Lemma get_embedding_model_times_cached (n : nat) (m : Model) :
  get_embedding_model_times Model load_model n (Some m)
  = (repeat m n, Some m, []).
Proof.
  induction n as [|n IH]; [reflexivity|].
  cbn [get_embedding_model_times get_embedding_model repeat].
  rewrite IH. reflexivity.
Qed.

(** X28. the model is loaded at most once.  Over any positive number of
    calls in a row, [get_embedding_model] loads the model once, by its
    fixed name, when the cache is empty and never when it is filled; every
    call returns the same model, which is the one left in the cache. *)
Theorem get_embedding_model_loads_once (n : nat) (_model : option Model) :
  (0 < n)%nat ->
  get_embedding_model_times Model load_model n _model
  = (repeat (default (load_model MODEL_NAME) _model) n,
     Some (default (load_model MODEL_NAME) _model),
     match _model with None => [MODEL_NAME] | Some _ => [] end).
Proof.
  intros Hn. destruct _model as [m|].
  - apply get_embedding_model_times_cached.
  - destruct n as [|n]; [lia|].
    cbn [get_embedding_model_times get_embedding_model repeat].
    rewrite get_embedding_model_times_cached. reflexivity.
Qed.

End ModelCacheProperties.

(* ===================================================================== *)
(** ** Concrete runs of the loading, splitting and caching properties *)
(* ===================================================================== *)

Lemma build_or_load_index_reuse_run :
  build_or_load_index unit tt 2 stub_ids stub_excel_docs stub_isdir
                      stub_pdfs_fail stub_embed_texts
                      (py "data/excel") (py "data/pdf") false
  = [CountCall].
Proof. apply build_or_load_index_reuse. lia. Defined.

Lemma build_or_load_index_add_run :
  exists before ids metadatas,
    build_or_load_index unit tt 2 stub_ids stub_excel_docs stub_isdir
                        stub_pdfs_fail stub_embed_texts
                        (py "data/excel") (py "data/pdf") true
    = before ++ [EmbedTextsCall [kb_doc];
                 AddCall ids [kb_doc] metadatas (stub_embed_texts [kb_doc])]
    /\ ids !! 0%nat = Some (py "doc-0").
Proof.
  destruct (build_or_load_index_add
              unit tt 2 stub_ids stub_excel_docs stub_isdir stub_pdfs_fail
              stub_embed_texts (py "data/excel") (py "data/pdf") true
              (or_intror eq_refl)
              (fun H => eq_ind [] (fun l => match l with
                                            | [] => True
                                            | _ :: _ => False
                                            end) I _ (eq_sym H)))
    as (before & ids & metadatas & Hrun & _ & _ & _ & _ & Hid & _).
  exists before, ids, metadatas. split; [exact Hrun|].
  apply (Hid 0%nat). cbn. lia.
Defined.

Lemma build_or_load_index_no_documents_run :
  In (DeleteCall [py "doc-0"; py "doc-1"])
     (build_or_load_index unit tt 2 stub_ids stub_no_docs stub_isdir
                          stub_pdfs_fail stub_embed_texts
                          (py "data/excel") (py "data/pdf") true).
Proof.
  apply (build_or_load_index_no_documents
           unit tt 2 stub_ids stub_no_docs stub_isdir stub_pdfs_fail
           stub_embed_texts (py "data/excel") (py "data/pdf") true
           (or_intror eq_refl) eq_refl).
  - lia.
  - reflexivity.
Defined.

Lemma extract_english_block_needs_english_run :
  extract_english_block ascii_only (py "12345" ++ nl ++ py " --- 2024 ") = [].
Proof.
  apply extract_english_block_needs_english.
  vm_compute. repeat constructor.
Defined.

Lemma row_to_text_keeps_cells_run :
  Substring (py "Customer question: How to reset PIN?")
            (_row_to_text ascii_only
               [(py "Question", Some (py " How to reset PIN? "));
                (py "Notes", None);
                (py "Answer", Some (py "Visit a branch."))]).
Proof.
  apply (row_to_text_keeps_cells
           ascii_only
           [(py "Question", Some (py " How to reset PIN? "));
            (py "Notes", None);
            (py "Answer", Some (py "Visit a branch."))]
           (py "Question") (py " How to reset PIN? ")).
  - left. reflexivity.
  - vm_compute. discriminate.
  - apply contains_spec. vm_compute. reflexivity.
Defined.

Lemma pdf_subcategory_numbered_run :
  pdf_subcategory (py "6. Terms and Conditions for Savings Account")
  = py "Savings Account".
Proof.
  refine (proj1 (pdf_subcategory_numbered (py "6") (py "Savings Account") _ _)).
  - vm_compute. constructor; [discriminate | constructor].
  - vm_compute. discriminate.
Defined.

Lemma split_answer_sections_three_parts_run :
  split_answer_sections ascii_only fallback_answer
  = (Some (py "I'm not fully sure based on the available information. Please inform the customer that you will double-check and get back to them."),
     Some (py "Retrieval confidence was low or there is no closely related article in the current knowledge base."),
     Some (py "1) Confirm the customer's product and key details." ++ nl
           ++ py "2) Check the official product policy or internal system manually." ++ nl
           ++ py "3) If still unclear, escalate to a supervisor. (Human handoff recommended.)")).
Proof.
  apply (split_answer_sections_three_parts
           ascii_only
           (py " I'm not fully sure based on the available information. Please inform the customer that you will double-check and get back to them." ++ nl ++ nl)
           (py " Retrieval confidence was low or there is no closely related article in the current knowledge base." ++ nl ++ nl)
           (nl ++ py "1) Confirm the customer's product and key details." ++ nl
            ++ py "2) Check the official product policy or internal system manually." ++ nl
            ++ py "3) If still unclear, escalate to a supervisor. (Human handoff recommended.)")).
  - vm_compute. reflexivity.
  - vm_compute. reflexivity.
  - vm_compute. reflexivity.
  - intros H. apply contains_spec in H. vm_compute in H. discriminate.
  - intros H. apply contains_spec in H. vm_compute in H. discriminate.
Defined.

Lemma ui_answer_followup_query_run :
  head (trace (ui_answer ascii_only stub_encode near_query stub_generate
                         stub_randbelow stub_format_2f
                         (three_messages
                            ++ [{| role := py "user";
                                   content := py "and the limit?" |}])))
  = Some (EncodeCall [py "user" ++ nl ++ py "Follow-up: and the limit?"]).
Proof.
  apply (ui_answer_followup_query
           ascii_only stub_encode near_query stub_generate stub_randbelow
           stub_format_2f three_messages (py "and the limit?")).
  - vm_compute. reflexivity.
  - vm_compute. reflexivity.
  - apply Nat.leb_le. vm_compute. reflexivity.
Defined.

Lemma get_embedding_model_loads_once_run :
  get_embedding_model_times nat stub_load_model 3 None
  = ([7; 7; 7]%nat, Some 7%nat, [MODEL_NAME]).
Proof. apply (get_embedding_model_loads_once nat stub_load_model 3 None). lia. Defined.

